(** * spanish-assistant: the turn state machine, the conversation history
      and the [/api/turn] endpoint

    Shallow embedding of
    - [pages/api/turn.ts]    (the backend: [fieldToString], [parseForm],
                              [handler]) and
    - [app/(tabs)/index.tsx] (the client: [reducer], [startRecording],
                              [stopAndSend] of the [Home] component).

    JavaScript strings are sequences of UTF-16 code units; they are modelled
    as lists of [N].  The asynchronous collaborators (recorder, player,
    [fetch], the three OpenAI calls, formidable) are not part of the
    repository: the outcome of each of their calls is an input of the model,
    and the calls that are made are written to a log.  A handler runs from
    its start to its end without another event in between, except in
    [startRecording_among], which places events at the two [await]s of
    [startRecording]. *)

From Stdlib Require Import Ascii String.
From Stdlib Require Import List NArith ZArith Bool Lia DecimalString.
Import ListNotations.

Set Implicit Arguments.

(* ===================================================================== *)
(** ** JavaScript strings *)
(* ===================================================================== *)

Module JS.

(** A JavaScript string: its UTF-16 code units. *)
Definition jsstring := list N.

(** An ASCII literal as a JavaScript string. *)
Definition js (s : string) : jsstring :=
  map N_of_ascii (list_ascii_of_string s).
Arguments js s%_string.

(** [a === b] on strings. *)
Fixpoint str_eqb (a b : jsstring) : bool :=
  match a, b with
  | [], [] => true
  | x :: a', y :: b' => N.eqb x y && str_eqb a' b'
  | _, _ => false
  end.

(** Truthiness of a string value that may be [null] or [undefined]:
    [!v] holds for [null], [undefined] and the empty string. *)
Definition truthy (v : option jsstring) : bool :=
  match v with
  | Some (_ :: _) => true
  | _ => false
  end.

(** [v ?? d]: only [null] and [undefined] take the default. *)
Definition nullish {A} (v : option A) (d : A) : A :=
  match v with Some x => x | None => d end.

(** [arr.slice(start)] with one (possibly negative) argument. *)
Definition slice {A} (start : Z) (l : list A) : list A :=
  let len := Z.of_nat (length l) in
  let k := if (start <? 0)%Z then Z.max (len + start) 0 else Z.min start len in
  skipn (Z.to_nat k) l.

(** [s.split(sep).pop()] for a one-unit separator: the segment after the
    last separator (the whole string when there is none).  [split] never
    returns an empty array, so [pop] never yields [undefined]. *)
Fixpoint split_pop_aux (sep : N) (acc s : jsstring) : jsstring :=
  match s with
  | [] => rev acc
  | c :: s' => if N.eqb c sep then split_pop_aux sep [] s'
               else split_pop_aux sep (c :: acc) s'
  end.

Definition split_pop (sep : N) (s : jsstring) : jsstring :=
  split_pop_aux sep [] s.

End JS.
Import JS.

(* ===================================================================== *)
(** ** The turn state machine (index.tsx) *)
(* ===================================================================== *)

(** [type State = "idle" | "listening" | "uploading" | "speaking" | "error"] *)
Inductive State : Type :=
| idle | listening | uploading | speaking | error.

(** [type Event = { type: "PRESS_DOWN" } | ...] *)
Inductive Event : Type :=
| PRESS_DOWN | PRESS_UP | UPLOAD_START | UPLOAD_OK | UPLOAD_ERR
| PLAY_END | CANCEL.

(** [function reducer(state: State, ev: Event): State] of [Home]. *)
Definition reducer (state : State) (ev : Event) : State :=
  match state with
  | idle =>
      match ev with PRESS_DOWN => listening | _ => state end
  | listening =>
      match ev with
      | PRESS_UP => uploading
      | CANCEL => idle
      | _ => state
      end
  | uploading =>
      match ev with
      | UPLOAD_OK => speaking
      | UPLOAD_ERR => error
      | _ => state
      end
  | speaking =>
      match ev with PLAY_END => idle | _ => state end
  | error =>
      match ev with CANCEL => idle | _ => state end
  end.

(** The transition table of the specification, as a partial map: the
    listed pairs and nothing else. *)
Definition spec_table (s : State) (e : Event) : option State :=
  match s, e with
  | idle, PRESS_DOWN => Some listening
  | listening, PRESS_UP => Some uploading
  | listening, CANCEL => Some idle
  | uploading, UPLOAD_OK => Some speaking
  | uploading, UPLOAD_ERR => Some error
  | speaking, PLAY_END => Some idle
  | error, CANCEL => Some idle
  | _, _ => None
  end.

(* ===================================================================== *)
(** ** JSON: values, [JSON.parse], [JSON.stringify] *)
(* ===================================================================== *)

(** [JSON.parse] and [JSON.stringify] are ECMAScript built-ins (ECMA-262,
    25.5); the repository calls them on the history payload.  They are
    modelled on code units, following the JSON grammar.  A number keeps its
    lexeme: the code never looks inside one. *)
Module Json.

#[warnings="-register-all"] Inductive JSON : Type :=
| JNull
| JBool (b : bool)
| JNumber (lexeme : jsstring)
| JString (s : jsstring)
| JArray (items : list JSON)
| JObject (members : list (jsstring * JSON)).

(** *** Lexical helpers *)

Definition is_ws (c : N) : bool :=
  (c =? 32)%N || (c =? 9)%N || (c =? 10)%N || (c =? 13)%N.

Fixpoint skip_ws (s : jsstring) : jsstring :=
  match s with
  | c :: s' => if is_ws c then skip_ws s' else s
  | [] => []
  end.

Definition is_digit (c : N) : bool := (48 <=? c)%N && (c <=? 57)%N.

Definition hexval (c : N) : option N :=
  if (48 <=? c)%N && (c <=? 57)%N then Some (c - 48)%N
  else if (97 <=? c)%N && (c <=? 102)%N then Some (c - 87)%N
  else if (65 <=? c)%N && (c <=? 70)%N then Some (c - 55)%N
  else None.

Definition hex4 (a b c d : N) : option N :=
  match hexval a, hexval b, hexval c, hexval d with
  | Some x3, Some x2, Some x1, Some x0 =>
      Some (((x3 * 16 + x2) * 16 + x1) * 16 + x0)%N
  | _, _, _, _ => None
  end.

(** The single-character escapes: the unit after the backslash. *)
Definition unescape (e : N) : option N :=
  if (e =? 34)%N then Some 34%N            (* quotation mark *)
  else if (e =? 92)%N then Some 92%N       (* reverse solidus *)
  else if (e =? 47)%N then Some 47%N       (* solidus *)
  else if (e =? 98)%N then Some 8%N        (* b: backspace *)
  else if (e =? 102)%N then Some 12%N      (* f: form feed *)
  else if (e =? 110)%N then Some 10%N      (* n: line feed *)
  else if (e =? 114)%N then Some 13%N      (* r: carriage return *)
  else if (e =? 116)%N then Some 9%N       (* t: tab *)
  else None.

Definition cons_unit (c : N) (r : option (jsstring * jsstring))
  : option (jsstring * jsstring) :=
  match r with
  | Some (str, rest) => Some (c :: str, rest)
  | None => None
  end.

(** The characters of a string literal, after the opening quote, up to and
    including the closing quote: the decoded string and the rest. *)
Fixpoint parse_chars (s : jsstring) : option (jsstring * jsstring) :=
  match s with
  | [] => None
  | c :: rest =>
      if (c =? 34)%N then Some ([], rest)
      else if (c =? 92)%N then
        match rest with
        | [] => None
        | e :: rest1 =>
            if (e =? 117)%N then
              match rest1 with
              | h3 :: h2 :: h1 :: h0 :: rest2 =>
                  match hex4 h3 h2 h1 h0 with
                  | Some u => cons_unit u (parse_chars rest2)
                  | None => None
                  end
              | _ => None
              end
            else
              match unescape e with
              | Some u => cons_unit u (parse_chars rest1)
              | None => None
              end
        end
      else if (c <? 32)%N then None
      else cons_unit c (parse_chars rest)
  end.

Fixpoint span_digits (s : jsstring) : jsstring * jsstring :=
  match s with
  | c :: s' =>
      if is_digit c then let (ds, r) := span_digits s' in (c :: ds, r)
      else ([], s)
  | [] => ([], [])
  end.

(** A number: an optional minus sign; the integer part, a single zero or
    a non-zero digit followed by digits; an optional fraction, a point and
    at least one digit; an optional exponent, [e] or [E], an optional sign
    and at least one digit. *)
Definition parse_sign (s : jsstring) : jsstring * jsstring :=
  match s with
  | c :: r => if (c =? 45)%N then ([c], r) else ([], s)
  | [] => ([], s)
  end.

Definition parse_int (s : jsstring) : option (jsstring * jsstring) :=
  match s with
  | c :: r =>
      if (c =? 48)%N then Some ([c], r)
      else if is_digit c then
        let (ds, r') := span_digits r in Some (c :: ds, r')
      else None
  | [] => None
  end.

Definition parse_digits1 (s : jsstring) : option (jsstring * jsstring) :=
  match span_digits s with
  | ([], _) => None
  | (ds, r) => Some (ds, r)
  end.

Definition parse_frac (s : jsstring) : option (jsstring * jsstring) :=
  match s with
  | c :: r =>
      if (c =? 46)%N then
        match parse_digits1 r with
        | Some (ds, r') => Some (c :: ds, r')
        | None => None
        end
      else Some ([], s)
  | [] => Some ([], s)
  end.

Definition parse_exp_sign (s : jsstring) : jsstring * jsstring :=
  match s with
  | g :: r => if (g =? 43)%N || (g =? 45)%N then ([g], r) else ([], s)
  | [] => ([], s)
  end.

Definition parse_exp (s : jsstring) : option (jsstring * jsstring) :=
  match s with
  | e :: r =>
      if (e =? 101)%N || (e =? 69)%N then
        let (sg, r1) := parse_exp_sign r in
        match parse_digits1 r1 with
        | Some (ds, r') => Some (e :: sg ++ ds, r')
        | None => None
        end
      else Some ([], s)
  | [] => Some ([], s)
  end.

Definition parse_number (s : jsstring) : option (jsstring * jsstring) :=
  let (sign, s1) := parse_sign s in
  match parse_int s1 with
  | None => None
  | Some (ip, s2) =>
      match parse_frac s2 with
      | None => None
      | Some (fp, s3) =>
          match parse_exp s3 with
          | None => None
          | Some (ep, s4) => Some (sign ++ ip ++ fp ++ ep, s4)
          end
      end
  end.

Fixpoint strip_prefix (p s : jsstring) : option jsstring :=
  match p, s with
  | [], _ => Some s
  | x :: p', y :: s' => if (x =? y)%N then strip_prefix p' s' else None
  | _ :: _, [] => None
  end.

Definition parse_literal (word : jsstring) (v : JSON) (s : jsstring)
  : option (JSON * jsstring) :=
  match strip_prefix word s with
  | Some r => Some (v, r)
  | None => None
  end.

(** The text after white space, when it starts with the unit [c]. *)
Definition after (c : N) (s : jsstring) : option jsstring :=
  match skip_ws s with
  | x :: r => if (x =? c)%N then Some r else None
  | [] => None
  end.

(** *** The parser

    Recursive descent; [fuel] bounds the nesting of the calls. *)
Fixpoint parse_value (fuel : nat) (s : jsstring) {struct fuel}
  : option (JSON * jsstring) :=
  match fuel with
  | O => None
  | S f =>
      match skip_ws s with
      | [] => None
      | c :: r =>
          if (c =? 34)%N then
            match parse_chars r with
            | Some (str, r') => Some (JString str, r')
            | None => None
            end
          else if (c =? 91)%N then
            match after 93 r with
            | Some r' => Some (JArray [], r')
            | None =>
                match parse_elements f r with
                | Some (vs, r') => Some (JArray vs, r')
                | None => None
                end
            end
          else if (c =? 123)%N then
            match after 125 r with
            | Some r' => Some (JObject [], r')
            | None =>
                match parse_members f r with
                | Some (ms, r') => Some (JObject ms, r')
                | None => None
                end
            end
          else if (c =? 116)%N then parse_literal (js "rue") (JBool true) r
          else if (c =? 102)%N then parse_literal (js "alse") (JBool false) r
          else if (c =? 110)%N then parse_literal (js "ull") JNull r
          else
            match parse_number (c :: r) with
            | Some (lex, r') => Some (JNumber lex, r')
            | None => None
            end
      end
  end

(** One element, then a comma and more elements, or the closing
    bracket. *)
with parse_elements (fuel : nat) (s : jsstring) {struct fuel}
  : option (list JSON * jsstring) :=
  match fuel with
  | O => None
  | S f =>
      match parse_value f s with
      | None => None
      | Some (v, r) =>
          match after 44 r with
          | Some r' =>
              match parse_elements f r' with
              | Some (vs, r'') => Some (v :: vs, r'')
              | None => None
              end
          | None =>
              match after 93 r with
              | Some r' => Some ([v], r')
              | None => None
              end
          end
      end
  end

(** One member, a string, a colon and a value, then a comma and more
    members, or the closing brace. *)
with parse_members (fuel : nat) (s : jsstring) {struct fuel}
  : option (list (jsstring * JSON) * jsstring) :=
  match fuel with
  | O => None
  | S f =>
      match after 34 s with
      | None => None
      | Some r =>
          match parse_chars r with
          | None => None
          | Some (k, r1) =>
              match after 58 r1 with
              | None => None
              | Some r2 =>
                  match parse_value f r2 with
                  | None => None
                  | Some (v, r3) =>
                      match after 44 r3 with
                      | Some r4 =>
                          match parse_members f r4 with
                          | Some (ms, r5) => Some ((k, v) :: ms, r5)
                          | None => None
                          end
                      | None =>
                          match after 125 r3 with
                          | Some r4 => Some ([(k, v)], r4)
                          | None => None
                          end
                      end
                  end
              end
          end
      end
  end.

(** [JSON.parse(text)]: [None] stands for the [SyntaxError] it throws.
    Every call of the parser consumes a unit before it calls itself one
    level down, so twice the length of the text is fuel enough. *)
Definition JSON_parse (text : jsstring) : option JSON :=
  match parse_value (2 * length text + 1) text with
  | Some (v, r) =>
      match skip_ws r with
      | [] => Some v
      | _ :: _ => None
      end
  | None => None
  end.

(** [o[k]] on the members of a parsed object: of two members with the
    same key the later one wins. *)
Fixpoint member (k : jsstring) (ms : list (jsstring * JSON)) : option JSON :=
  match ms with
  | [] => None
  | (k', v) :: ms' =>
      match member k ms' with
      | Some v' => Some v'
      | None => if str_eqb k' k then Some v else None
      end
  end.

(** [m.k] on a parsed value that is not [null]: arrays and primitives
    have no such property ([undefined]). *)
Definition prop (k : jsstring) (m : JSON) : option JSON :=
  match m with
  | JObject ms => member k ms
  | _ => None
  end.

(** *** [JSON.stringify] (QuoteJSONString and the array and object
    serialisation without indentation) *)

Definition hexdigit (d : N) : N :=
  if (d <? 10)%N then (48 + d)%N else (87 + d)%N.

(** [\uXXXX] with lower-case digits. *)
Definition unicode_escape (c : N) : jsstring :=
  [92%N; 117%N;
   hexdigit ((c / 4096) mod 16); hexdigit ((c / 256) mod 16);
   hexdigit ((c / 16) mod 16); hexdigit (c mod 16)].

Definition is_high (c : N) : bool := (55296 <=? c)%N && (c <=? 56319)%N.
Definition is_low (c : N) : bool := (56320 <=? c)%N && (c <=? 57343)%N.

(** One code unit that is not a surrogate. *)
Definition quote_unit (c : N) : jsstring :=
  if (c =? 8)%N then [92%N; 98%N]
  else if (c =? 9)%N then [92%N; 116%N]
  else if (c =? 10)%N then [92%N; 110%N]
  else if (c =? 12)%N then [92%N; 102%N]
  else if (c =? 13)%N then [92%N; 114%N]
  else if (c =? 34)%N then [92%N; 34%N]
  else if (c =? 92)%N then [92%N; 92%N]
  else if (c <? 32)%N then unicode_escape c
  else [c].

(** A surrogate pair is copied, a lone surrogate is escaped. *)
Fixpoint quote_body (s : jsstring) : jsstring :=
  match s with
  | [] => []
  | c :: rest =>
      if is_high c then
        match rest with
        | d :: rest' =>
            if is_low d then c :: d :: quote_body rest'
            else unicode_escape c ++ quote_body rest
        | [] => unicode_escape c
        end
      else if is_low c then unicode_escape c ++ quote_body rest
      else quote_unit c ++ quote_body rest
  end.

Definition quote (s : jsstring) : jsstring :=
  34%N :: quote_body s ++ [34%N].

(** The elements of an array, separated by commas. *)
Fixpoint join_elems (l : list jsstring) : jsstring :=
  match l with
  | [] => []
  | [x] => x
  | x :: l' => x ++ 44%N :: join_elems l'
  end.

End Json.
Import Json.

(* ===================================================================== *)
(** ** Conversation entries *)
(* ===================================================================== *)

(** [type Msg = { role: "user" | "assistant"; content: string }] (turn.ts)
    and [type ChatMsg], the same type in index.tsx. *)
Inductive Role : Type := user | assistant.

Record Msg : Type := { role : Role; content : jsstring }.

Definition ChatMsg : Type := Msg.

Definition role_name (r : Role) : jsstring :=
  match r with
  | user => js "user"
  | assistant => js "assistant"
  end.

(** The object [{ role, content }] as a JSON value, keys in creation
    order. *)
Definition Msg_value (m : Msg) : JSON :=
  JObject [(js "role", JString (role_name (role m)));
           (js "content", JString (content m))].

(** [JSON.stringify] of one entry. *)
Definition stringify_Msg (m : Msg) : jsstring :=
  js "{" ++ quote (js "role") ++ js ":" ++ quote (role_name (role m))
     ++ js "," ++ quote (js "content") ++ js ":" ++ quote (content m)
     ++ js "}".

(** [JSON.stringify(h)] for [h : ChatMsg[]]. *)
Definition JSON_stringify (h : list ChatMsg) : jsstring :=
  js "[" ++ join_elems (map stringify_Msg h) ++ js "]".

(** [!m || typeof m !== "object"]: [null] is the one falsy value whose
    [typeof] is ["object"]; for a boolean, a number or a string the second
    disjunct holds whatever the first says. *)
Definition not_an_object (m : JSON) : bool :=
  match m with
  | JArray _ | JObject _ => false
  | JNull | JBool _ | JNumber _ | JString _ => true
  end.

Definition is_role (v : option JSON) (name : jsstring) : bool :=
  match v with
  | Some (JString s) => str_eqb s name
  | _ => false
  end.

Definition typeof_string (v : option JSON) : bool :=
  match v with
  | Some (JString _) => true
  | _ => false
  end.

(** The predicate of [parsed.filter((m): m is Msg => ...)]. *)
Definition isMsg (m : JSON) : bool :=
  if not_an_object m then false
  else
    (is_role (prop (js "role") m) (js "user")
     || is_role (prop (js "role") m) (js "assistant"))
    && typeof_string (prop (js "content") m).

(** A value that passed the guard, seen at its type [Msg].  Other
    properties of the object are not part of the type and are read
    nowhere. *)
Definition asMsg (m : JSON) : option Msg :=
  if isMsg m then
    match prop (js "role") m, prop (js "content") m with
    | Some (JString r), Some (JString c) =>
        Some {| role := if str_eqb r (js "user") then user else assistant;
                content := c |}
    | _, _ => None
    end
  else None.

(** [filter] with a type guard: the elements that pass, at the narrowed
    type, in their order. *)
Fixpoint filter_guard (l : list JSON) : list Msg :=
  match l with
  | [] => []
  | m :: l' =>
      match asMsg m with
      | Some x => x :: filter_guard l'
      | None => filter_guard l'
      end
  end.

(* ===================================================================== *)
(** ** Exceptions and effects *)
(* ===================================================================== *)

(** A thrown value: an [Error] with its message, or anything else (with
    what [String(e)] gives; it has no [message]). *)
Inductive Exn : Type :=
| Error (message : jsstring)
| Thrown (text : jsstring).

(** The outcome of awaiting a collaborator. *)
Definition Outcome (A : Type) : Type := (Exn + A)%type.

(** Computations over a state [St] that may throw. *)
Module Eff.
Section Eff.
Variable St : Type.

Definition M (A : Type) : Type := St -> Outcome A * St.

Definition ret {A} (x : A) : M A := fun s => (inr x, s).

Definition bind {A B} (m : M A) (k : A -> M B) : M B :=
  fun s =>
    match m s with
    | (inr x, s') => k x s'
    | (inl e, s') => (inl e, s')
    end.

Definition throw {A} (e : Exn) : M A := fun s => (inl e, s).

(** [try { body } catch (e) { handler }]: the state changes made before
    the throw stay. *)
Definition try_catch {A} (body : M A) (handler : Exn -> M A) : M A :=
  fun s =>
    match body s with
    | (inr x, s') => (inr x, s')
    | (inl e, s') => handler e s'
    end.

Definition get : M St := fun s => (inr s, s).
Definition modify (f : St -> St) : M unit := fun s => (inr tt, f s).

(** Awaiting a collaborator whose outcome is known. *)
Definition await {A} (o : Outcome A) : M A := fun s => (o, s).

End Eff.
Arguments get {St}.
Arguments ret {St A} x.
Arguments throw {St A} e.
Arguments await {St A} o.
End Eff.

Declare Scope eff_scope.
Delimit Scope eff_scope with eff.
Notation "x <- m ;; k" := (Eff.bind m (fun x => k))
  (at level 61, m at next level, right associativity) : eff_scope.
Notation "m ;; k" := (Eff.bind m (fun _ => k))
  (at level 61, right associativity) : eff_scope.

(* ===================================================================== *)
(** ** The backend: pages/api/turn.ts *)
(* ===================================================================== *)

Module Backend.
Import Eff.
Local Open Scope eff_scope.

Definition SYSTEM_PROMPT : jsstring :=
  [10%N]
  ++ js "You are a warm Spanish conversation partner and coach." ++ [10%N]
  ++ js "Always reply in Spanish. Keep responses to 1" ++ [8211%N]
  ++ js "4 sentences." ++ [10%N]
  ++ js "When there" ++ [8217%N] ++ js "s a clear mistake, first write "
  ++ [8220%N] ++ js "Correcci" ++ [243%N] ++ js "n:" ++ [8221%N]
  ++ js " with a short fix," ++ [10%N]
  ++ js "then give a natural reply. Ask a brief follow-up question each turn."
  ++ [10%N]
  ++ js "Use Latin American Spanish consistently. Use informal "
  ++ [34%N] ++ js "t" ++ [250%N] ++ [34%N] ++ js " form." ++ [10%N]
  ++ js "Use simple vocabulary and grammar suitable for a beginner/intermediate learner."
  ++ [10%N].

(** The reply used when the chat model returns no content. *)
Definition FALLBACK_REPLY : jsstring :=
  [191%N] ++ js "Puedes repetir, por favor?".

(** The history cap of [parseForm]. *)
Definition HISTORY_CAP : nat := 12.

(** A formidable field: [string | string[]]. *)
Inductive FieldValue : Type :=
| FString (s : jsstring)
| FArray (l : list jsstring).

(** [function fieldToString(f: undefined | string | string[])] *)
Definition fieldToString (f : option FieldValue) : option jsstring :=
  match f with
  | Some (FString s) => Some s
  | Some (FArray (x :: _)) => Some x
  | _ => None
  end.

(** An uploaded file as formidable reports it; [filepath] is [None] when
    the property is absent or not a string. *)
Record File : Type :=
  { filepath : option jsstring; originalFilename : option jsstring }.

(** What [form.parse] hands to its callback when [err] is null. *)
Record Form : Type :=
  { fields : list (jsstring * FieldValue);
    files : list (jsstring * File) }.

Fixpoint assoc {A} (k : jsstring) (l : list (jsstring * A)) : option A :=
  match l with
  | [] => None
  | (k', v) :: l' => if str_eqb k' k then Some v else assoc k l'
  end.

(** [files["audio"] ?? Object.values(files)[0]] *)
Definition pick_file (fs : list (jsstring * File)) : option File :=
  match assoc (js "audio") fs with
  | Some f => Some f
  | None => match fs with (_, f) :: _ => Some f | [] => None end
  end.

(** Lines 46 to 62 of [parseForm]: the history out of the raw field.
    A payload that does not parse ([catch]), or parses to something that is
    not an array, leaves [history] at [[]]; the cap keeps the last 12. *)
Definition parse_history (raw : option jsstring) : list Msg :=
  let history :=
    match raw with
    | Some (c :: text) =>
        match JSON_parse (c :: text) with
        | Some (JArray parsed) => filter_guard parsed
        | Some _ => []
        | None => []
        end
    | _ => []
    end in
  if Nat.ltb HISTORY_CAP (length history)
  then slice (- Z.of_nat HISTORY_CAP) history
  else history.

(** What [parseForm] resolves with. *)
Record Parsed : Type :=
  { file_path : jsstring;
    file_name : option jsstring;
    history : list Msg }.

(** [function parseForm(req)], from the outcome of [form.parse]. *)
Definition parseForm (parsed : Outcome Form) : Outcome Parsed :=
  match parsed with
  | inl err => inl err
  | inr form =>
      match pick_file (files form) with
      | Some {| filepath := Some (c :: p); originalFilename := n |} =>
          inr {| file_path := c :: p;
                 file_name := n;
                 history :=
                   parse_history
                     (fieldToString (assoc (js "history") (fields form))) |}
      | _ => inl (Error (js "No audio file uploaded"))
      end
  end.

(** The request: its method and what parsing its body would give. *)
Record Request : Type :=
  { method : option jsstring; body : Outcome Form }.

Inductive ChatRole : Type := role_system | role_user | role_assistant.

Definition chat_role (r : Role) : ChatRole :=
  match r with user => role_user | assistant => role_assistant end.

Record ChatCompletionMessageParam : Type :=
  { p_role : ChatRole; p_content : jsstring }.

Record TranscriptionJSON : Type := { text : option jsstring }.

(** [choices[i].message.content]; each level may be missing. *)
Record Message : Type := { m_content : option jsstring }.
Record Choice : Type := { message : option Message }.
Record ChatCompletion : Type := { choices : list Choice }.

(** [chat.choices[0]?.message?.content] *)
Definition first_content (chat : ChatCompletion) : option jsstring :=
  match choices chat with
  | {| message := Some m |} :: _ => m_content m
  | _ => None
  end.

(** The OpenAI client: the outcome of each call, as a function of what
    the handler passes. *)
Record OpenAI : Type :=
  { transcriptions_create : jsstring -> jsstring -> Outcome TranscriptionJSON;
    chat_completions_create :
      list ChatCompletionMessageParam -> Outcome ChatCompletion;
    (** the synthesized audio, already in base64 *)
    speech_create : jsstring -> Outcome jsstring }.

(** The calls the handler makes outside itself, in order. *)
Inductive Call : Type :=
| CallParseForm
| CallTranscribe (path name : jsstring)
| CallChat (messages : list ChatCompletionMessageParam)
| CallSpeech (input : jsstring).

Record TurnJSON : Type :=
  { audioBase64 : jsstring; transcript : jsstring; replyText : jsstring }.

Inductive Body : Type :=
| RouteBody (ok : bool) (route : jsstring)
| ErrorBody (error : jsstring)
| TurnBody (payload : TurnJSON).

(** [res] and the log of calls. *)
Record Srv : Type :=
  { status : option nat;
    headers : list (jsstring * jsstring);
    sent : option Body;
    calls : list Call }.

Definition fresh : Srv :=
  {| status := None; headers := []; sent := None; calls := [] |}.

Definition setHeader (name value : jsstring) : M Srv unit :=
  modify (fun s =>
    {| status := status s; headers := headers s ++ [(name, value)];
       sent := sent s; calls := calls s |}).

(** [res.status(code).json(b)] *)
Definition send (code : nat) (b : Body) : M Srv unit :=
  modify (fun s =>
    {| status := Some code; headers := headers s;
       sent := Some b; calls := calls s |}).

(** Await a collaborator and log the call. *)
Definition call {A} (c : Call) (o : Outcome A) : M Srv A :=
  modify (fun s =>
    {| status := status s; headers := headers s;
       sent := sent s; calls := calls s ++ [c] |}) ;;
  await o.

Definition method_is (req : Request) (name : jsstring) : bool :=
  match method req with
  | Some m => str_eqb m name
  | None => false
  end.

(** [e instanceof Error ? e.message : String(e)] *)
Definition exn_text (e : Exn) : jsstring :=
  match e with
  | Error m => m
  | Thrown t => t
  end.

(** The message list of the chat request. *)
Definition build_messages (history : list Msg) (userText : jsstring)
  : list ChatCompletionMessageParam :=
  {| p_role := role_system; p_content := SYSTEM_PROMPT |}
  :: map (fun m => {| p_role := chat_role (role m); p_content := content m |})
         history
  ++ [{| p_role := role_user; p_content := userText |}].

(** [file.originalFilename || "audio.m4a"] *)
Definition upload_name (p : Parsed) : jsstring :=
  if truthy (file_name p) then nullish (file_name p) []
  else js "audio.m4a".

(** [export default async function handler(req, res)] *)
Definition handler (client : OpenAI) (req : Request) : M Srv unit :=
  if method_is req (js "GET") then send 200 (RouteBody true (js "turn"))
  else if negb (method_is req (js "POST")) then
    setHeader (js "Allow") (js "POST") ;;
    send 405 (ErrorBody (js "Method Not Allowed"))
  else
    try_catch
      (p <- call CallParseForm (parseForm (body req)) ;;
       let name := upload_name p in
       stt <- call (CallTranscribe (file_path p) name)
                   (transcriptions_create client (file_path p) name) ;;
       let userText := nullish (text stt) [] in
       let messages := build_messages (history p) userText in
       chat <- call (CallChat messages)
                    (chat_completions_create client messages) ;;
       let reply := nullish (first_content chat) FALLBACK_REPLY in
       audio <- call (CallSpeech reply) (speech_create client reply) ;;
       setHeader (js "Content-Type") (js "application/json") ;;
       setHeader (js "Cache-Control") (js "no-store") ;;
       send 200 (TurnBody {| audioBase64 := audio;
                             transcript := userText;
                             replyText := reply |}))
      (fun e => send 500 (ErrorBody (exn_text e))).

End Backend.

(* ===================================================================== *)
(** ** The client: app/(tabs)/index.tsx, component [Home] *)
(* ===================================================================== *)

Module Client.
Import Eff.
Local Open Scope eff_scope.

Definition API_URL : jsstring :=
  js "https://nonlethally-ostracizable-janey.ngrok-free.dev/api/turn".

(** The cap of the stored history and the window sent with a request. *)
Definition HISTORY_CAP : nat := 12.
Definition SEND_WINDOW : nat := 6.

(** [Platform.OS] *)
Inductive OS : Type := ios | android | other_os.

(** An [Audio.Recording]: what each of its methods will do. *)
Record Recording : Type :=
  { prepareToRecordAsync : Outcome unit;
    startAsync : Outcome unit;
    stopAndUnloadAsync : Outcome unit;
    getURI : option jsstring }.

(** An [Audio.Sound]. *)
Record Sound : Type :=
  { stopAsync : Outcome unit;
    unloadAsync : Outcome unit;
    playAsync : Outcome unit }.

(** The body of a turn response, as [stopAndSend] destructures it; a
    property that is absent or null is [None]. *)
Record TurnResponse : Type :=
  { audioBase64 : option jsstring;
    transcript : option jsstring;
    replyText : option jsstring }.

(** A [Response] of [fetch]. *)
Record HttpResponse : Type :=
  { ok : bool;
    http_status : N;
    resp_text : Outcome jsstring;
    resp_json : Outcome TurnResponse }.

(** The multipart form that is posted. *)
Record FilePart : Type :=
  { uri : jsstring; name : jsstring; type : jsstring }.

Record FormData : Type :=
  { audio : FilePart; history_field : jsstring }.

Record FetchCall : Type :=
  { url : jsstring; http_method : jsstring; form : FormData }.

(** The device and the network: the outcome of each call. *)
Record Device : Type :=
  { platform : OS;
    new_Recording : Recording;
    fetch : FetchCall -> Outcome HttpResponse;
    Sound_createAsync : jsstring -> Outcome Sound }.

(** What a handler does that can be seen from outside, in order: the
    states the reducer enters and the requests that go out. *)
Inductive Effect : Type :=
| Entered (s : State)
| Fetched (rq : FetchCall).

(** The state of the component: the reducer state, the [useState] cells,
    the refs; whether a playback watcher that dispatches [PLAY_END] is
    registered; and the log of the effects so far. *)
Record Ctl : Type :=
  { state : State;
    errorMsg : option jsstring;
    history : list ChatMsg;
    isReplayDisabled : bool;
    recordingRef : option Recording;
    soundRef : option Sound;
    watcher : bool;
    log : list Effect }.

(** [useReducer(reducer, "idle")], [useState(null)], [useState([])],
    [useState(true)], [useRef(null)]. *)
Definition initial : Ctl :=
  {| state := idle; errorMsg := None; history := [];
     isReplayDisabled := true; recordingRef := None; soundRef := None;
     watcher := false; log := [] |}.

Definition dispatch (ev : Event) : M Ctl unit :=
  modify (fun c =>
    {| state := reducer (state c) ev; errorMsg := errorMsg c;
       history := history c; isReplayDisabled := isReplayDisabled c;
       recordingRef := recordingRef c; soundRef := soundRef c;
       watcher := watcher c;
       log := log c ++ [Entered (reducer (state c) ev)] |}).

Definition setErrorMsg (m : option jsstring) : M Ctl unit :=
  modify (fun c =>
    {| state := state c; errorMsg := m;
       history := history c; isReplayDisabled := isReplayDisabled c;
       recordingRef := recordingRef c; soundRef := soundRef c;
       watcher := watcher c; log := log c |}).

(** [setHistory((prev) => f(prev))] *)
Definition setHistory (f : list ChatMsg -> list ChatMsg) : M Ctl unit :=
  modify (fun c =>
    {| state := state c; errorMsg := errorMsg c;
       history := f (history c); isReplayDisabled := isReplayDisabled c;
       recordingRef := recordingRef c; soundRef := soundRef c;
       watcher := watcher c; log := log c |}).

Definition setIsReplayDisabled (b : bool) : M Ctl unit :=
  modify (fun c =>
    {| state := state c; errorMsg := errorMsg c;
       history := history c; isReplayDisabled := b;
       recordingRef := recordingRef c; soundRef := soundRef c;
       watcher := watcher c; log := log c |}).

Definition set_recordingRef (r : option Recording) : M Ctl unit :=
  modify (fun c =>
    {| state := state c; errorMsg := errorMsg c;
       history := history c; isReplayDisabled := isReplayDisabled c;
       recordingRef := r; soundRef := soundRef c;
       watcher := watcher c; log := log c |}).

(** A new sound has no watcher yet. *)
Definition set_soundRef (s : option Sound) : M Ctl unit :=
  modify (fun c =>
    {| state := state c; errorMsg := errorMsg c;
       history := history c; isReplayDisabled := isReplayDisabled c;
       recordingRef := recordingRef c; soundRef := s;
       watcher := false; log := log c |}).

(** [sound.setOnPlaybackStatusUpdate(st => st?.didJustFinish && dispatch PLAY_END)] *)
Definition setOnPlaybackStatusUpdate : M Ctl unit :=
  modify (fun c =>
    {| state := state c; errorMsg := errorMsg c;
       history := history c; isReplayDisabled := isReplayDisabled c;
       recordingRef := recordingRef c; soundRef := soundRef c;
       watcher := true; log := log c |}).

(** [await fetch(API_URL, { method: "POST", body: form })], logged. *)
Definition do_fetch (d : Device) (rq : FetchCall) : M Ctl HttpResponse :=
  modify (fun c =>
    {| state := state c; errorMsg := errorMsg c;
       history := history c; isReplayDisabled := isReplayDisabled c;
       recordingRef := recordingRef c; soundRef := soundRef c;
       watcher := watcher c; log := log c ++ [Fetched rq] |}) ;;
  await (fetch d rq).

(** [e?.message] *)
Definition exn_message (e : Exn) : option jsstring :=
  match e with
  | Error m => Some m
  | Thrown _ => None
  end.

(** The updater passed to [setHistory] on a response with a transcript:
    two entries at the end, then the last 12. *)
Definition appendTurn (transcript replyText : option jsstring)
  (prev : list ChatMsg) : list ChatMsg :=
  let next :=
    prev ++ [ {| role := user; content := nullish transcript [] |};
              {| role := assistant; content := nullish replyText [] |} ] in
  if Nat.ltb HISTORY_CAP (length next)
  then slice (- Z.of_nat HISTORY_CAP) next
  else next.

(** [async function startRecording()] *)
Definition startRecording (d : Device) : M Ctl unit :=
  try_catch
    (dispatch PRESS_DOWN ;;
     let rec := new_Recording d in
     await (prepareToRecordAsync rec) ;;
     await (startAsync rec) ;;
     set_recordingRef (Some rec))
    (fun e =>
       setErrorMsg (Some (nullish (exn_message e)
                                  (js "Failed to start recording"))) ;;
       dispatch CANCEL).

Definition audio_type (os : OS) : jsstring :=
  match os with ios => js "audio/caf" | _ => js "audio/m4a" end.

Definition decimal (n : N) : jsstring :=
  js (DecimalString.NilZero.string_of_uint (N.to_uint n)).

(** The request of one turn: the recording at [u] and the last 6 entries
    of the history. *)
Definition turn_request (d : Device) (closure : Ctl) (u : jsstring)
  : FetchCall :=
  let filename := split_pop 47%N u in
  let file := {| uri := u; name := filename;
                 type := audio_type (platform d) |} in
  let form :=
    {| audio := file;
       history_field :=
         JSON_stringify (slice (- Z.of_nat SEND_WINDOW) (history closure)) |} in
  {| url := API_URL; http_method := js "POST"; form := form |}.

(** [stopAndSend] after the recording location is known to be there. *)
Definition upload_and_play (d : Device) (closure : Ctl) (u : jsstring)
  : M Ctl unit :=
  setErrorMsg None ;;
  dispatch UPLOAD_START ;;
  resp <- do_fetch d (turn_request d closure u) ;;
  (if ok resp then ret tt
   else
     t <- await (resp_text resp) ;;
     throw (Error (js "Backend " ++ decimal (http_status resp)
                   ++ js ": " ++ t))) ;;
  r <- await (resp_json resp) ;;
  (if truthy (audioBase64 r) then ret tt
   else throw (Error (js "No audioBase64 in response"))) ;;
  match transcript r with
  | Some _ => setHistory (appendTurn (transcript r) (replyText r))
  | None => ret tt
  end ;;
  c <- get ;;
  match soundRef c with
  | Some old =>
      try_catch (await (stopAsync old)) (fun _ => ret tt) ;;
      try_catch (await (unloadAsync old)) (fun _ => ret tt) ;;
      set_soundRef None
  | None => ret tt
  end ;;
  sound <- await (Sound_createAsync d
                    (js "data:audio/mpeg;base64," ++ nullish (audioBase64 r) [])) ;;
  set_soundRef (Some sound) ;;
  dispatch UPLOAD_OK ;;
  setIsReplayDisabled false ;;
  await (playAsync sound) ;;
  setOnPlaybackStatusUpdate.

(** [async function stopAndSend()].  The [history] it sends is the one of
    the render that created the closure: the component state when the
    handler starts. *)
Definition stopAndSend (d : Device) : M Ctl unit :=
  try_catch
    (closure <- get ;;
     match recordingRef closure with
     | None => ret tt
     | Some rec =>
         await (stopAndUnloadAsync rec) ;;
         let u := getURI rec in
         set_recordingRef None ;;
         dispatch PRESS_UP ;;
         match u with
         | Some (c :: u') => upload_and_play d closure (c :: u')
         | _ => throw (Error (js "No recording URI"))
         end
     end)
    (fun e =>
       setErrorMsg (Some (nullish (exn_message e) (js "Upload/play error"))) ;;
       dispatch UPLOAD_ERR).

(** [onPressIn={() => state === "idle" && startRecording()}] *)
Definition onPressIn (d : Device) : M Ctl unit :=
  c <- get ;;
  match state c with
  | idle => startRecording d
  | _ => ret tt
  end.

(** [onPressOut={() => state === "listening" && stopAndSend()}] *)
Definition onPressOut (d : Device) : M Ctl unit :=
  c <- get ;;
  match state c with
  | listening => stopAndSend d
  | _ => ret tt
  end.

(** The playback status callback registered by [stopAndSend]. *)
Definition onPlaybackStatus (didJustFinish : bool) : M Ctl unit :=
  c <- get ;;
  if watcher c && didJustFinish then dispatch PLAY_END else ret tt.

(** [soundRef.current.setOnPlaybackStatusUpdate((st) => {})]: the
    callback of [replayAudio] replaces the watcher. *)
Definition clearOnPlaybackStatusUpdate : M Ctl unit :=
  modify (fun c =>
    {| state := state c; errorMsg := errorMsg c;
       history := history c; isReplayDisabled := isReplayDisabled c;
       recordingRef := recordingRef c; soundRef := soundRef c;
       watcher := false; log := log c |}).

(** [async function replayAudio()] *)
Definition replayAudio : M Ctl unit :=
  try_catch
    (c <- get ;;
     match soundRef c with
     | None => ret tt
     | Some sound =>
         await (stopAsync sound) ;;
         await (playAsync sound) ;;
         clearOnPlaybackStatusUpdate
     end)
    (fun e =>
       setErrorMsg (Some (nullish (exn_message e) (js "Replay error")))).

(** [onPress={() => !isReplayDisabled && replayAudio()}] *)
Definition onReplayPress : M Ctl unit :=
  c <- get ;;
  if isReplayDisabled c then ret tt else replayAudio.

(** Run a handler: the component state it leaves. *)
Definition run (m : M Ctl unit) (c : Ctl) : Ctl := snd (m c).

(** Acquiring the recorder: prepare, then start. *)
Definition acquire (rec : Recording) : Outcome unit :=
  match prepareToRecordAsync rec with
  | inl e => inl e
  | inr _ => startAsync rec
  end.

(** The remote call delivered a usable turn: the request resolved, the
    status is a success, the body is readable and carries audio. *)
Definition remote_result (o : Outcome HttpResponse) : option TurnResponse :=
  match o with
  | inl _ => None
  | inr resp =>
      if ok resp then
        match resp_json resp with
        | inl _ => None
        | inr r => if truthy (audioBase64 r) then Some r else None
        end
      else None
  end.

End Client.

(* ===================================================================== *)
(** ** Notions used in the statements, and scenarios *)
(* ===================================================================== *)

Import Eff.
Import Client.

(** The cap of both sides: keep the last 12 when there are more. *)
Definition last12 {A} (l : list A) : list A :=
  if Nat.ltb 12 (length l) then slice (- 12) l else l.

(** The history after a sequence of turns with a transcript, from the
    empty history of a new session. *)
Definition history_after (turns : list (jsstring * option jsstring))
  : list ChatMsg :=
  fold_left (fun h tr => appendTurn (Some (fst tr)) (snd tr) h) turns [].

(** What a handler adds to the log. *)
Definition log_by (m : M Ctl unit) (c : Ctl) : list Effect :=
  skipn (length (log c)) (log (run m c)).

(** The states the reducer enters while a handler runs. *)
Definition entered_by (m : M Ctl unit) (c : Ctl) : list State :=
  flat_map (fun e => match e with Entered s => [s] | Fetched _ => [] end)
           (log_by m c).

(** The requests a handler sends. *)
Definition sent_by (m : M Ctl unit) (c : Ctl) : list FetchCall :=
  flat_map (fun e => match e with Fetched rq => [rq] | Entered _ => [] end)
           (log_by m c).

(** The component states that the handlers can produce from the initial
    one, each event with the device and the network of its moment.  Each
    handler is taken to its end before the next event: these are the states
    between handlers.  The history is changed by the updater of
    [setHistory] alone, applied to the latest history, so what is proved of
    the history here does not depend on the order in which suspended
    handlers resume; events that arrive while [startRecording] is suspended
    are the matter of [startRecording_among]. *)
Inductive reachable : Ctl -> Prop :=
| reach_initial : reachable initial
| reach_press_in d c : reachable c -> reachable (run (onPressIn d) c)
| reach_press_out d c : reachable c -> reachable (run (onPressOut d) c)
| reach_status b c : reachable c -> reachable (run (onPlaybackStatus b) c)
| reach_replay c : reachable c -> reachable (run onReplayPress c).

(** A literal with apostrophes standing for quotation marks. *)
Definition jsq (s : string) : jsstring :=
  map (fun c => if (c =? 39)%N then 34%N else c) (js s).
Arguments jsq s%_string.

(** Entry number [n] of a test history: the user speaks on even turns. *)
Definition entry (n : N) : Msg :=
  {| role := if N.even n then user else assistant;
     content := js "m" ++ decimal n |}.

Definition entries (k : nat) : list Msg :=
  map (fun i => entry (N.of_nat i)) (seq 0 k).

(** A payload with valid and invalid elements: a user entry, a system
    entry, an entry without role, a content that is a number, [null], a
    number, a string, an array, an assistant entry with one more
    property. *)
Definition mixed_payload : jsstring :=
  jsq "[{'role':'user','content':'Hola'},{'role':'system','content':'x'},{'content':'y'},{'role':'assistant','content':5},null,7,'s',[1],{'role':'assistant','content':'Bien','id':3}]".

(** Recordings: one that works, one that has no location after the stop,
    one that cannot be prepared (permission denied). *)
Definition rec_ok : Recording :=
  {| prepareToRecordAsync := inr tt; startAsync := inr tt;
     stopAndUnloadAsync := inr tt;
     getURI := Some (js "file:///cache/Audio/recording-1.m4a") |}.

Definition rec_no_uri : Recording :=
  {| prepareToRecordAsync := inr tt; startAsync := inr tt;
     stopAndUnloadAsync := inr tt; getURI := None |}.

Definition rec_denied : Recording :=
  {| prepareToRecordAsync :=
       inl (Error (js "Missing audio recording permissions."));
     startAsync := inr tt; stopAndUnloadAsync := inr tt; getURI := None |}.

Definition sound_ok : Sound :=
  {| stopAsync := inr tt; unloadAsync := inr tt; playAsync := inr tt |}.

(** A device with a given recorder and a given answer of the network. *)
Definition device (rec : Recording) (net : Outcome HttpResponse) : Device :=
  {| platform := android;
     new_Recording := rec;
     fetch := fun _ => net;
     Sound_createAsync := fun _ => inr sound_ok |}.

Definition reply_hola : jsstring :=
  [161%N] ++ js "Hola! " ++ [191%N] ++ js "C" ++ [243%N] ++ js "mo est"
  ++ [225%N] ++ js "s?".

(** The answer of [handler] to a turn. *)
Definition resp_hola : HttpResponse :=
  {| ok := true; http_status := 200;
     resp_text := inr [];
     resp_json := inr {| audioBase64 := Some (js "SUQzBAAAAAAA");
                         transcript := Some (js "Hola");
                         replyText := Some reply_hola |} |}.

(** The answer of the earlier backend, which returns the audio alone. *)
Definition resp_audio_only : HttpResponse :=
  {| ok := true; http_status := 200;
     resp_text := inr [];
     resp_json := inr {| audioBase64 := Some (js "SUQzBAAAAAAA");
                         transcript := None;
                         replyText := None |} |}.

Definition resp_500 : HttpResponse :=
  {| ok := false; http_status := 500;
     resp_text := inr (jsq "{'error':'Connection error.'}");
     resp_json := inl (Thrown (js "body used already")) |}.

Definition resp_no_audio : HttpResponse :=
  {| ok := true; http_status := 200;
     resp_text := inr [];
     resp_json := inr {| audioBase64 := None;
                         transcript := Some (js "Hola");
                         replyText := Some reply_hola |} |}.

Definition dev_no_uri : Device := device rec_no_uri (inr resp_hola).
Definition dev_denied : Device := device rec_denied (inr resp_hola).
Definition dev_hola : Device := device rec_ok (inr resp_hola).
Definition dev_audio_only : Device := device rec_ok (inr resp_audio_only).
Definition dev_500 : Device := device rec_ok (inr resp_500).
Definition dev_no_audio : Device := device rec_ok (inr resp_no_audio).
Definition dev_offline : Device :=
  device rec_ok (inl (Error (js "Network request failed"))).

(** A device whose player cannot load the audio. *)
Definition dev_no_player : Device :=
  {| platform := ios;
     new_Recording := rec_ok;
     fetch := fun _ => inr resp_hola;
     Sound_createAsync := fun _ => inl (Error (js "Player error")) |}.

(** The component after a press on a new session. *)
Definition pressed (d : Device) : Ctl := run (onPressIn d) initial.

(** A component that already holds [k] entries and is listening. *)
Definition pressed_with (d : Device) (k : nat) : Ctl :=
  run (setHistory (fun _ => entries k) ;; onPressIn d)%eff initial.

(** A request with a method and an audio upload, and a client that
    transcribes to [Hola]; the chat model answers with [content]. *)
Definition upload_form (history : jsstring) : Backend.Form :=
  {| Backend.fields := [(js "history", Backend.FString history)];
     Backend.files :=
       [(js "audio",
         {| Backend.filepath := Some (js "/tmp/upload_1");
            Backend.originalFilename := Some (js "recording-1.m4a") |})] |}.

Definition request (m : string) (history : jsstring) : Backend.Request :=
  {| Backend.method := Some (js m);
     Backend.body := inr (upload_form history) |}.

Definition openai (content : option jsstring) : Backend.OpenAI :=
  {| Backend.transcriptions_create :=
       fun _ _ => inr {| Backend.text := Some (js "Hola") |};
     Backend.chat_completions_create :=
       fun _ => inr {| Backend.choices :=
                         [{| Backend.message :=
                               Some {| Backend.m_content := content |} |}] |};
     Backend.speech_create := fun _ => inr (js "SUQzBAAAAAAA") |}.

(* ===================================================================== *)
(** ** The earlier backend: pages/api/turn.ts before the history *)
(* ===================================================================== *)

Module Backend0.
Import Eff.
Local Open Scope eff_scope.

Definition SYSTEM_PROMPT : jsstring :=
  [10%N]
  ++ js "You are a warm Spanish conversation partner and coach." ++ [10%N]
  ++ js "Always reply in Spanish. Keep responses to 1" ++ [8211%N]
  ++ js "3 sentences." ++ [10%N]
  ++ js "When there" ++ [8217%N] ++ js "s a clear mistake, first write "
  ++ [8220%N] ++ js "Correcci" ++ [243%N] ++ js "n:" ++ [8221%N]
  ++ js " with a short fix," ++ [10%N]
  ++ js "then give a natural reply. Ask a brief follow-up question each turn."
  ++ [10%N]
  ++ js "Use Latin American Spanish consistently." ++ [10%N].

(** [function parseForm(req): Promise<{ filePath: string }>]:
    [files.audio || Object.values(files)[0]], rejected when it has no
    truthy [filepath]. *)
Definition parseForm (parsed : Outcome Backend.Form) : Outcome jsstring :=
  match parsed with
  | inl err => inl err
  | inr form =>
      match Backend.pick_file (Backend.files form) with
      | Some f =>
          if truthy (Backend.filepath f)
          then inr (nullish (Backend.filepath f) [])
          else inl (Error (js "No audio file uploaded"))
      | None => inl (Error (js "No audio file uploaded"))
      end
  end.

(** The bodies this version answers with: an error, or the audio alone. *)
Inductive Body : Type :=
| ErrorBody (error : jsstring)
| AudioBody (audioBase64 : jsstring).

Record Srv : Type :=
  { status : option nat;
    headers : list (jsstring * jsstring);
    sent : option Body;
    calls : list Backend.Call }.

Definition fresh : Srv :=
  {| status := None; headers := []; sent := None; calls := [] |}.

Definition setHeader (name value : jsstring) : M Srv unit :=
  modify (fun s =>
    {| status := status s; headers := headers s ++ [(name, value)];
       sent := sent s; calls := calls s |}).

Definition send (code : nat) (b : Body) : M Srv unit :=
  modify (fun s =>
    {| status := Some code; headers := headers s;
       sent := Some b; calls := calls s |}).

Definition call {A} (c : Backend.Call) (o : Outcome A) : M Srv A :=
  modify (fun s =>
    {| status := status s; headers := headers s;
       sent := sent s; calls := calls s ++ [c] |}) ;;
  await o.

(** [chat.choices[0]?.message?.content || fallback]: the empty string
    takes the fallback too. *)
Definition reply_of (chat : Backend.ChatCompletion) : jsstring :=
  if truthy (Backend.first_content chat)
  then nullish (Backend.first_content chat) []
  else Backend.FALLBACK_REPLY.

(** [e?.message ?? "Internal error"] *)
Definition error_text (e : Exn) : jsstring :=
  match e with
  | Error m => m
  | Thrown _ => js "Internal error"
  end.

(** [export default async function handler(req, res)] *)
Definition handler (client : Backend.OpenAI) (req : Backend.Request)
  : M Srv unit :=
  if negb (Backend.method_is req (js "POST")) then
    setHeader (js "Allow") (js "POST") ;;
    send 405 (ErrorBody (js "Method Not Allowed"))
  else
    try_catch
      (filePath <- call Backend.CallParseForm (parseForm (Backend.body req)) ;;
       stt <- call (Backend.CallTranscribe filePath (js "audio.m4a"))
                   (Backend.transcriptions_create client filePath
                      (js "audio.m4a")) ;;
       let userText := nullish (Backend.text stt) [] in
       let messages :=
         [ {| Backend.p_role := Backend.role_system;
              Backend.p_content := SYSTEM_PROMPT |};
           {| Backend.p_role := Backend.role_user;
              Backend.p_content := userText |} ] in
       chat <- call (Backend.CallChat messages)
                    (Backend.chat_completions_create client messages) ;;
       let reply := reply_of chat in
       audio <- call (Backend.CallSpeech reply)
                     (Backend.speech_create client reply) ;;
       setHeader (js "Content-Type") (js "audio/mpeg") ;;
       setHeader (js "Cache-Control") (js "no-store") ;;
       send 200 (AudioBody audio))
      (fun e => send 500 (ErrorBody (error_text e))).

End Backend0.

(* ===================================================================== *)
(** ** The earlier component [App], the events of [Home] and its view *)
(* ===================================================================== *)

Module App.

Definition is_event (ev expected : Event) : bool :=
  match ev, expected with
  | PRESS_DOWN, PRESS_DOWN | PRESS_UP, PRESS_UP
  | UPLOAD_START, UPLOAD_START | UPLOAD_OK, UPLOAD_OK
  | UPLOAD_ERR, UPLOAD_ERR | PLAY_END, PLAY_END | CANCEL, CANCEL => true
  | _, _ => false
  end.

(** [function reducer(state: State, ev: Event): State] of [App], with its
    [if (ev.type === ...) return ...; return state;] in each case. *)
Definition reducer (state : State) (ev : Event) : State :=
  match state with
  | idle =>
      if is_event ev PRESS_DOWN then listening else state
  | listening =>
      if is_event ev PRESS_UP then uploading
      else if is_event ev CANCEL then idle
      else state
  | uploading =>
      if is_event ev UPLOAD_OK then speaking
      else if is_event ev UPLOAD_ERR then error
      else state
  | speaking =>
      if is_event ev PLAY_END then idle else state
  | error =>
      if is_event ev CANCEL then idle else state
  end.

End App.

(** What can happen to the component [Home]: the main button is pressed
    or released (with the device and the network of that moment), the
    player reports a status, the replay button is pressed. *)
Inductive UIEvent : Type :=
| PressIn (d : Device)
| PressOut (d : Device)
| PlaybackStatus (didJustFinish : bool)
| ReplayPress.

Definition handle (e : UIEvent) : M Ctl unit :=
  match e with
  | PressIn d => onPressIn d
  | PressOut d => onPressOut d
  | PlaybackStatus b => onPlaybackStatus b
  | ReplayPress => onReplayPress
  end.

(** The component after a sequence of events. *)
Fixpoint play (evs : list UIEvent) (c : Ctl) : Ctl :=
  match evs with
  | [] => c
  | e :: evs' => play evs' (run (handle e) c)
  end.

(** [startRecording] with the events that arrive while it is suspended:
    [during_prepare] while [prepareToRecordAsync] is pending, [during_start]
    while [startAsync] is pending.  PRESS_DOWN was dispatched before the
    first [await], so these events find the component re-rendered in its new
    state; [recordingRef.current] is assigned after the second [await]. *)
Definition startRecording_among (d : Device)
  (during_prepare during_start : list UIEvent) : M Ctl unit :=
  try_catch
    (dispatch PRESS_DOWN ;;
     let rec := new_Recording d in
     modify (play during_prepare) ;;
     await (prepareToRecordAsync rec) ;;
     modify (play during_start) ;;
     await (startAsync rec) ;;
     set_recordingRef (Some rec))%eff
    (fun e =>
       setErrorMsg (Some (nullish (exn_message e)
                                  (js "Failed to start recording"))) ;;
       dispatch CANCEL)%eff.

(** [state !== "idle" && state !== "listening" && styles.buttonDisabled] *)
Definition buttonDisabled (s : State) : bool :=
  match s with
  | idle | listening => false
  | _ => true
  end.

(** The children of the button text: each
    [{state === "..." && "label"}] renders its label or nothing. *)
Definition buttonText (s : State) : list jsstring :=
  (match s with idle => [js "Hold to Talk"] | _ => [] end)
  ++ (match s with listening => [js "Release to Send"] | _ => [] end)
  ++ (match s with uploading => [js "Sending" ++ [8230%N]] | _ => [] end)
  ++ (match s with speaking => [js "Playing" ++ [8230%N]] | _ => [] end)
  ++ (match s with
      | error => [js "Error " ++ [8211%N] ++ js " Tap to reset"]
      | _ => []
      end).

(** The turn body that [handler] sends, as [stopAndSend] destructures
    it: the three properties are there. *)
Definition seen_by_client (p : Backend.TurnJSON) : TurnResponse :=
  {| audioBase64 := Some (Backend.audioBase64 p);
     transcript := Some (Backend.transcript p);
     replyText := Some (Backend.replyText p) |}.

(** A POST whose form has fields and no file. *)
Definition form_without_file : Backend.Form :=
  {| Backend.fields := [(js "history", Backend.FString (js "[]"))];
     Backend.files := [] |}.

Definition post_without_file : Backend.Request :=
  {| Backend.method := Some (js "POST");
     Backend.body := inr form_without_file |}.

(** Two uploads: a usable one, and one named [audio] with an empty
    path. *)
Definition files_with_bad_audio : list (jsstring * Backend.File) :=
  [ (js "file",
     {| Backend.filepath := Some (js "/tmp/upload_1");
        Backend.originalFilename := None |});
    (js "audio",
     {| Backend.filepath := Some [];
        Backend.originalFilename := None |}) ].

(** A client whose transcriber is out of reach. *)
Definition openai_down : Backend.OpenAI :=
  {| Backend.transcriptions_create :=
       fun _ _ => inl (Error (js "Connection error."));
     Backend.chat_completions_create :=
       fun _ => inl (Error (js "Connection error."));
     Backend.speech_create := fun _ => inl (Error (js "Connection error.")) |}.

(** A client whose calls throw something that is not an [Error]. *)
Definition openai_throwing : Backend.OpenAI :=
  {| Backend.transcriptions_create := fun _ _ => inl (Thrown (js "timeout"));
     Backend.chat_completions_create := fun _ => inl (Thrown (js "timeout"));
     Backend.speech_create := fun _ => inl (Thrown (js "timeout")) |}.

(** What [parseForm] makes of [request "POST" mixed_payload]. *)
Definition parsed_mixed : Backend.Parsed :=
  {| Backend.file_path := js "/tmp/upload_1";
     Backend.file_name := Some (js "recording-1.m4a");
     Backend.history :=
       [ {| role := user; content := js "Hola" |};
         {| role := assistant; content := js "Bien" |} ] |}.

(** A recorder that starts and then cannot be stopped, and the component
    after a press on a device with it. *)
Definition rec_unstoppable : Recording :=
  {| prepareToRecordAsync := inr tt; startAsync := inr tt;
     stopAndUnloadAsync := inl (Thrown (js "no valid audio data"));
     getURI := None |}.

Definition dev_unstoppable : Device :=
  device rec_unstoppable (inr resp_hola).

(** The entries of a sequence of whole turns: for each turn the user
    entry, then the assistant entry. *)
Definition turns_entries (turns : list (jsstring * jsstring)) : list ChatMsg :=
  flat_map (fun tr => [ {| role := user; content := fst tr |};
                        {| role := assistant; content := snd tr |} ])
           turns.

(* ===================================================================== *)
(** * Properties *)
(* ===================================================================== *)

(** ** Strings and slices *)

Lemma str_eqb_refl (a : jsstring) : str_eqb a a = true.
Proof.
  induction a as [|x a IH]; simpl; [reflexivity|].
  now rewrite N.eqb_refl, IH.
Qed.

Lemma str_eqb_eq (a b : jsstring) : str_eqb a b = true <-> a = b.
Proof.
  split; [|intros ->; apply str_eqb_refl].
  revert b; induction a as [|x a IH]; intros [|y b]; simpl;
    try discriminate; [reflexivity|].
  intros H. apply andb_true_iff in H as [Hx Hab].
  apply N.eqb_eq in Hx. apply IH in Hab. congruence.
Qed.

Lemma str_eqb_neq (a b : jsstring) : a <> b -> str_eqb a b = false.
Proof.
  intros H. destruct (str_eqb a b) eqn:E; [|reflexivity].
  apply str_eqb_eq in E. contradiction.
Qed.

(** [l.slice(-n)] drops all but the last [n] elements, for [n > 0]
    ([l.slice(-0)] is [l.slice(0)], the whole array). *)
Lemma slice_last {A} (n : nat) (l : list A) :
  0 < n -> slice (- Z.of_nat n) l = skipn (length l - n) l.
Proof.
  intros Hn. unfold slice.
  replace (- Z.of_nat n <? 0)%Z with true by (symmetry; apply Z.ltb_lt; lia).
  f_equal. lia.
Qed.

Lemma slice_last_length {A} (n : nat) (l : list A) :
  0 < n -> length (slice (- Z.of_nat n) l) = Nat.min n (length l).
Proof. intros Hn. rewrite slice_last, length_skipn by exact Hn. lia. Qed.

Lemma slice_last_short {A} (n : nat) (l : list A) :
  0 < n -> length l <= n -> slice (- Z.of_nat n) l = l.
Proof.
  intros Hn H. rewrite slice_last by exact Hn.
  replace (length l - n) with 0 by lia. reflexivity.
Qed.

Lemma last12_skipn {A} (l : list A) : last12 l = skipn (length l - 12) l.
Proof.
  unfold last12. destruct (Nat.ltb_spec 12 (length l)).
  - apply (slice_last (n:=12)). lia.
  - replace (length l - 12) with 0 by lia. reflexivity.
Qed.

Lemma last12_length {A} (l : list A) : length (last12 l) <= 12.
Proof. rewrite last12_skipn, length_skipn. lia. Qed.

Lemma last12_short {A} (l : list A) : length l <= 12 -> last12 l = l.
Proof.
  intros H. rewrite last12_skipn.
  replace (length l - 12) with 0 by lia. reflexivity.
Qed.

Lemma skipn_length_app {A} (l x : list A) : skipn (length l) (l ++ x) = x.
Proof.
  rewrite skipn_app, skipn_all, Nat.sub_diag. reflexivity.
Qed.

(** ** The state machine *)

(** C1. [reducer] is a function on all pairs of a state and an event, and
    it follows the transition table: a listed pair goes to the listed
    state, every other pair leaves the state unchanged.  A PLAY_END in a
    state other than [speaking] changes nothing. *)
Theorem reducer_matches_table :
  (forall (s : State) (e : Event),
      reducer s e = match spec_table s e with Some s' => s' | None => s end)
  /\ reducer speaking PLAY_END = idle
  /\ (forall s : State,
         reducer s PLAY_END = match s with speaking => idle | _ => s end).
Proof.
  split; [intros [] []; reflexivity|].
  split; [reflexivity|intros []; reflexivity].
Qed.

(** ** [JSON.parse] after [JSON.stringify] *)

(** Division and remainder by a constant, for [lia]. *)
Ltac Zify.zify_post_hook ::= Z.to_euclidean_division_equations.

Lemma hexval_hexdigit (x : N) : (x < 16)%N -> hexval (hexdigit x) = Some x.
Proof.
  intros H. unfold hexdigit, hexval.
  destruct (N.ltb_spec x 10).
  - replace ((48 <=? 48 + x)%N && (48 + x <=? 57)%N) with true.
    + f_equal. lia.
    + symmetry. apply andb_true_iff. split; apply N.leb_le; lia.
  - replace ((48 <=? 87 + x)%N && (87 + x <=? 57)%N) with false.
    + replace ((97 <=? 87 + x)%N && (87 + x <=? 102)%N) with true.
      * f_equal. lia.
      * symmetry. apply andb_true_iff. split; apply N.leb_le; lia.
    + symmetry. apply andb_false_iff. right. apply N.leb_gt. lia.
Qed.

Lemma hex4_unicode_escape (c : N) :
  (c < 65536)%N ->
  hex4 (hexdigit ((c / 4096) mod 16)) (hexdigit ((c / 256) mod 16))
       (hexdigit ((c / 16) mod 16)) (hexdigit (c mod 16)) = Some c.
Proof.
  intros H. unfold hex4.
  rewrite !hexval_hexdigit by (apply N.mod_lt; discriminate).
  f_equal. lia.
Qed.

Lemma parse_chars_unicode_escape (c : N) (rest : jsstring) :
  (c < 65536)%N ->
  parse_chars (unicode_escape c ++ rest) = cons_unit c (parse_chars rest).
Proof.
  intros H. unfold unicode_escape. cbn [app parse_chars N.eqb Pos.eqb].
  now rewrite hex4_unicode_escape.
Qed.

Lemma parse_chars_plain (c : N) (rest : jsstring) :
  (32 <= c)%N -> c <> 34%N -> c <> 92%N ->
  parse_chars (c :: rest) = cons_unit c (parse_chars rest).
Proof.
  intros H32 H34 H92. cbn [parse_chars].
  rewrite (proj2 (N.eqb_neq c 34) H34), (proj2 (N.eqb_neq c 92) H92).
  now rewrite (proj2 (N.ltb_ge c 32) H32).
Qed.

Lemma parse_chars_quote_unit (c : N) (rest : jsstring) :
  parse_chars (quote_unit c ++ rest) = cons_unit c (parse_chars rest).
Proof.
  unfold quote_unit.
  repeat match goal with
  | |- context [if (c =? ?k)%N then _ else _] =>
      destruct (N.eqb_spec c k); [subst c; reflexivity|]
  end.
  destruct (N.ltb_spec c 32).
  - apply parse_chars_unicode_escape. lia.
  - apply parse_chars_plain; assumption.
Qed.

Lemma parse_chars_quote_body (s rest : jsstring) :
  parse_chars (quote_body s ++ 34%N :: rest) = Some (s, rest).
Proof.
  remember (length s) as n eqn:Hn.
  revert s Hn. induction n as [n IH] using lt_wf_ind. intros s Hn.
  destruct s as [|c s]; [reflexivity|].
  cbn [quote_body].
  destruct (is_high c) eqn:Hh.
  - assert (Hc : (55296 <= c <= 56319)%N).
    { unfold is_high in Hh. apply andb_true_iff in Hh as [H1 H2].
      apply N.leb_le in H1, H2. lia. }
    destruct s as [|x s'].
    + rewrite parse_chars_unicode_escape by lia. reflexivity.
    + destruct (is_low x) eqn:Hl.
      * assert (Hx : (56320 <= x <= 57343)%N).
        { unfold is_low in Hl. apply andb_true_iff in Hl as [H1 H2].
          apply N.leb_le in H1, H2. lia. }
        cbn [app]. rewrite parse_chars_plain by lia.
        rewrite parse_chars_plain by lia.
        rewrite (IH (length s')) by (subst n; simpl; lia || reflexivity).
        reflexivity.
      * rewrite <- app_assoc, parse_chars_unicode_escape by lia.
        rewrite (IH (length (x :: s'))) by (subst n; simpl; lia || reflexivity).
        reflexivity.
  - destruct (is_low c) eqn:Hl.
    + assert (Hc : (56320 <= c <= 57343)%N).
      { unfold is_low in Hl. apply andb_true_iff in Hl as [H1 H2].
        apply N.leb_le in H1, H2. lia. }
      rewrite <- app_assoc, parse_chars_unicode_escape by lia.
      rewrite (IH (length s)) by (subst n; simpl; lia || reflexivity).
      reflexivity.
    + rewrite <- app_assoc, parse_chars_quote_unit.
      rewrite (IH (length s)) by (subst n; simpl; lia || reflexivity).
      reflexivity.
Qed.

(** The text of one entry, unit by unit. *)
Lemma stringify_Msg_shape (m : Msg) (rest : jsstring) :
  stringify_Msg m ++ rest =
  123%N :: quote (js "role") ++ 58%N :: 34%N :: role_name (role m)
    ++ 34%N :: 44%N :: quote (js "content") ++ 58%N :: 34%N
    :: quote_body (content m) ++ 34%N :: 125%N :: rest.
Proof.
  unfold stringify_Msg, quote. destruct m as [[] c]; cbn;
    rewrite <- !app_assoc; reflexivity.
Qed.

Lemma parse_value_Msg (f : nat) (m : Msg) (rest : jsstring) :
  parse_value (S (S (S (S f)))) (stringify_Msg m ++ rest)
  = Some (Msg_value m, rest).
Proof.
  rewrite stringify_Msg_shape. destruct m as [[] c];
    cbn; rewrite parse_chars_quote_body; reflexivity.
Qed.

Lemma parse_value_S (f : nat) (s : jsstring) :
  parse_value (S f) s =
  match skip_ws s with
  | [] => None
  | c :: r =>
      if (c =? 34)%N then
        match parse_chars r with
        | Some (str, r') => Some (JString str, r')
        | None => None
        end
      else if (c =? 91)%N then
        match after 93 r with
        | Some r' => Some (JArray [], r')
        | None =>
            match parse_elements f r with
            | Some (vs, r') => Some (JArray vs, r')
            | None => None
            end
        end
      else if (c =? 123)%N then
        match after 125 r with
        | Some r' => Some (JObject [], r')
        | None =>
            match parse_members f r with
            | Some (ms, r') => Some (JObject ms, r')
            | None => None
            end
        end
      else if (c =? 116)%N then parse_literal (js "rue") (JBool true) r
      else if (c =? 102)%N then parse_literal (js "alse") (JBool false) r
      else if (c =? 110)%N then parse_literal (js "ull") JNull r
      else
        match parse_number (c :: r) with
        | Some (lex, r') => Some (JNumber lex, r')
        | None => None
        end
  end.
Proof. reflexivity. Qed.

Lemma parse_elements_S (f : nat) (s : jsstring) :
  parse_elements (S f) s =
  match parse_value f s with
  | None => None
  | Some (v, r) =>
      match after 44 r with
      | Some r' =>
          match parse_elements f r' with
          | Some (vs, r'') => Some (v :: vs, r'')
          | None => None
          end
      | None =>
          match after 93 r with
          | Some r' => Some ([v], r')
          | None => None
          end
      end
  end.
Proof. reflexivity. Qed.

Lemma parse_members_S (f : nat) (s : jsstring) :
  parse_members (S f) s =
  match after 34 s with
  | None => None
  | Some r =>
      match parse_chars r with
      | None => None
      | Some (k, r1) =>
          match after 58 r1 with
          | None => None
          | Some r2 =>
              match parse_value f r2 with
              | None => None
              | Some (v, r3) =>
                  match after 44 r3 with
                  | Some r4 =>
                      match parse_members f r4 with
                      | Some (ms, r5) => Some ((k, v) :: ms, r5)
                      | None => None
                      end
                  | None =>
                      match after 125 r3 with
                      | Some r4 => Some ([(k, v)], r4)
                      | None => None
                      end
                  end
              end
          end
      end
  end.
Proof. reflexivity. Qed.

Lemma parse_elements_Msgs (f : nat) (m : Msg) (ms : list Msg) (rest : jsstring) :
  parse_elements (5 + length ms + f)
    (join_elems (map stringify_Msg (m :: ms)) ++ 93%N :: rest)
  = Some (map Msg_value (m :: ms), rest).
Proof.
  revert m f. induction ms as [|m' ms IH]; intros m f.
  - change (5 + length (@nil Msg) + f) with (S (S (S (S (S f))))).
    rewrite parse_elements_S.
    change (join_elems (map stringify_Msg [m])) with (stringify_Msg m).
    rewrite parse_value_Msg. reflexivity.
  - change (5 + length (m' :: ms) + f) with (S (5 + length ms + f)).
    rewrite parse_elements_S.
    change (join_elems (map stringify_Msg (m :: m' :: ms)))
      with (stringify_Msg m ++ 44%N :: join_elems (map stringify_Msg (m' :: ms))).
    rewrite <- app_assoc.
    change (5 + length ms + f) with (S (S (S (S (S (length ms + f)))))) at 1.
    rewrite parse_value_Msg.
    cbn [after skip_ws is_ws N.eqb Pos.eqb orb app].
    rewrite IH. reflexivity.
Qed.

Lemma join_elems_length (l : list jsstring) :
  (forall x, In x l -> x <> []) -> length l <= length (join_elems l).
Proof.
  induction l as [|x l IH]; intros H; [simpl; lia|].
  assert (Hx : 1 <= length x).
  { destruct x; [exfalso; apply (H []); [left|]; reflexivity|simpl; lia]. }
  destruct l as [|y l]; [simpl; lia|].
  change (join_elems (x :: y :: l)) with (x ++ 44%N :: join_elems (y :: l)).
  specialize (IH (fun z Hz => H z (or_intror Hz))).
  remember (join_elems (y :: l)) as j.
  rewrite length_app. cbn [length] in *. lia.
Qed.

Lemma stringify_Msg_head (m : Msg) (tail : jsstring) :
  exists r, stringify_Msg m ++ tail = 123%N :: r.
Proof. eexists. unfold stringify_Msg. reflexivity. Qed.

Lemma join_elems_Msgs_head (m : Msg) (ms : list Msg) :
  exists r, join_elems (map stringify_Msg (m :: ms)) = 123%N :: r.
Proof.
  destruct ms as [|m0 ms].
  - destruct (stringify_Msg_head m []) as [r Hr]. exists r.
    rewrite app_nil_r in Hr. exact Hr.
  - exact (stringify_Msg_head m _).
Qed.

(** An array whose first element is an object. *)
Lemma parse_value_array (f : nat) (body rest rest' : jsstring) (vs : list JSON) :
  (exists r, body = 123%N :: r) ->
  parse_elements f (body ++ 93%N :: rest) = Some (vs, rest') ->
  parse_value (S f) (91%N :: body ++ 93%N :: rest) = Some (JArray vs, rest').
Proof.
  intros [r ->] H. rewrite parse_value_S.
  cbn [after skip_ws is_ws N.eqb Pos.eqb orb app] in *.
  now rewrite H.
Qed.

Lemma JSON_stringify_length (h : list Msg) :
  length h + 2 <= length (JSON_stringify h).
Proof.
  unfold JSON_stringify.
  change (js "[" ++ join_elems (map stringify_Msg h) ++ js "]")
    with (91%N :: join_elems (map stringify_Msg h) ++ [93%N]).
  cbn [length]. rewrite length_app. cbn [length].
  rewrite <- (length_map stringify_Msg h) at 1.
  pose proof (join_elems_length (map stringify_Msg h)) as H.
  assert (Hne : forall x, In x (map stringify_Msg h) -> x <> []).
  { intros x Hx. apply in_map_iff in Hx as [y [<- _]].
    destruct (stringify_Msg_head y []) as [r Hr].
    rewrite app_nil_r in Hr. rewrite Hr. discriminate. }
  specialize (H Hne). lia.
Qed.

Lemma JSON_parse_stringify (h : list Msg) :
  JSON_parse (JSON_stringify h) = Some (JArray (map Msg_value h)).
Proof.
  destruct h as [|m ms]; [reflexivity|].
  unfold JSON_parse.
  pose proof (JSON_stringify_length (m :: ms)) as Hlen.
  remember (length (JSON_stringify (m :: ms))) as n eqn:Hn.
  cbn [length] in Hlen.
  replace (2 * n + 1) with (S (5 + length ms + (2 * n - 5 - length ms)))
    by lia.
  unfold JSON_stringify.
  change (js "[" ++ join_elems (map stringify_Msg (m :: ms)) ++ js "]")
    with (91%N :: join_elems (map stringify_Msg (m :: ms)) ++ [93%N]).
  erewrite parse_value_array; cycle 1.
  - apply join_elems_Msgs_head.
  - apply parse_elements_Msgs.
  - reflexivity.
Qed.

(** ** The fuel of [JSON_parse] is enough *)

Lemma skip_ws_length (s : jsstring) : length (skip_ws s) <= length s.
Proof.
  induction s as [|c s IH]; [reflexivity|].
  cbn [skip_ws]. destruct (is_ws c); cbn [length]; lia.
Qed.

Lemma after_length (c : N) (s r : jsstring) :
  after c s = Some r -> length r < length s.
Proof.
  unfold after. pose proof (skip_ws_length s) as H.
  destruct (skip_ws s) as [|x t]; [discriminate|].
  destruct (x =? c)%N; [|discriminate].
  intros [= <-]. cbn [length] in H. lia.
Qed.

Lemma parse_chars_length (s str r : jsstring) :
  parse_chars s = Some (str, r) -> length r < length s.
Proof.
  remember (length s) as n eqn:Hn. revert s str r Hn.
  induction n as [n IH] using lt_wf_ind. intros s str r Hn.
  destruct s as [|c s]; [discriminate|]. cbn [parse_chars].
  assert (Hcons : forall u t, length t < n ->
            cons_unit u (parse_chars t) = Some (str, r) -> length r < n).
  { intros u t Ht H. unfold cons_unit in H.
    destruct (parse_chars t) as [[str' r']|] eqn:E; [|discriminate].
    injection H as _ <-.
    specialize (IH (length t) Ht t str' r' eq_refl E). lia. }
  destruct (c =? 34)%N.
  { intros [= _ <-]. subst n. cbn [length]. lia. }
  destruct (c =? 92)%N.
  { destruct s as [|e s1]; [discriminate|].
    destruct (e =? 117)%N.
    - destruct s1 as [|h3 [|h2 [|h1 [|h0 s2]]]]; try discriminate.
      destruct (hex4 h3 h2 h1 h0); [|discriminate].
      intros H. apply Hcons in H; subst n; cbn [length] in *; lia.
    - destruct (unescape e); [|discriminate].
      intros H. apply Hcons in H; subst n; cbn [length] in *; lia. }
  destruct (c <? 32)%N; [discriminate|].
  intros H. apply Hcons in H; subst n; cbn [length] in *; lia.
Qed.

Lemma span_digits_length (s : jsstring) :
  length (snd (span_digits s)) <= length s.
Proof.
  induction s as [|c s IH]; [reflexivity|].
  cbn [span_digits]. destruct (is_digit c); [|reflexivity].
  destruct (span_digits s) as [ds r]. cbn [snd length] in *. lia.
Qed.

Lemma parse_digits1_length (s ds r : jsstring) :
  parse_digits1 s = Some (ds, r) -> length r <= length s.
Proof.
  unfold parse_digits1. pose proof (span_digits_length s) as H.
  destruct (span_digits s) as [[|d ds'] r']; [discriminate|].
  intros [= _ <-]. exact H.
Qed.

Lemma parse_number_length (s lex r : jsstring) :
  parse_number s = Some (lex, r) -> length r < length s.
Proof.
  unfold parse_number.
  assert (Hsign : length (snd (parse_sign s)) <= length s).
  { unfold parse_sign. destruct s as [|c t]; [reflexivity|].
    destruct (c =? 45)%N; cbn [snd length]; lia. }
  destruct (parse_sign s) as [sign s1]. cbn [snd] in Hsign.
  destruct (parse_int s1) as [[ip s2]|] eqn:Ei; [|discriminate].
  assert (Hint : length s2 < length s1).
  { unfold parse_int in Ei. destruct s1 as [|c t]; [discriminate|].
    destruct (c =? 48)%N.
    - injection Ei as _ <-. cbn [length]. lia.
    - destruct (is_digit c); [|discriminate].
      pose proof (span_digits_length t) as H.
      destruct (span_digits t) as [ds r']. injection Ei as _ <-.
      cbn [snd length] in *. lia. }
  destruct (parse_frac s2) as [[fp s3]|] eqn:Ef; [|discriminate].
  assert (Hfrac : length s3 <= length s2).
  { unfold parse_frac in Ef. destruct s2 as [|c t].
    - injection Ef as _ <-. reflexivity.
    - destruct (c =? 46)%N.
      + destruct (parse_digits1 t) as [[ds r']|] eqn:Ed; [|discriminate].
        injection Ef as _ <-. apply parse_digits1_length in Ed.
        cbn [length]. lia.
      + injection Ef as _ <-. reflexivity. }
  destruct (parse_exp s3) as [[ep s4]|] eqn:Ee; [|discriminate].
  assert (Hexp : length s4 <= length s3).
  { unfold parse_exp in Ee. destruct s3 as [|c t].
    - injection Ee as _ <-. reflexivity.
    - destruct ((c =? 101)%N || (c =? 69)%N).
      + assert (Hs : length (snd (parse_exp_sign t)) <= length t).
        { unfold parse_exp_sign. destruct t as [|g t']; [reflexivity|].
          destruct ((g =? 43)%N || (g =? 45)%N); cbn [snd length]; lia. }
        destruct (parse_exp_sign t) as [sg r1]. cbn [snd] in Hs.
        destruct (parse_digits1 r1) as [[ds r']|] eqn:Ed; [|discriminate].
        injection Ee as _ <-. apply parse_digits1_length in Ed.
        cbn [length]. lia.
      + injection Ee as _ <-. reflexivity. }
  intros [= _ <-]. lia.
Qed.

Lemma strip_prefix_length (p s r : jsstring) :
  strip_prefix p s = Some r -> length r <= length s.
Proof.
  revert s. induction p as [|x p IH]; intros s; cbn [strip_prefix].
  - intros [= <-]. reflexivity.
  - destruct s as [|y s]; [discriminate|].
    destruct (x =? y)%N; [|discriminate].
    intros H. apply IH in H. cbn [length]. lia.
Qed.

Lemma parse_literal_length (w : jsstring) (v v' : JSON) (s r : jsstring) :
  parse_literal w v s = Some (v', r) -> length r <= length s.
Proof.
  unfold parse_literal. destruct (strip_prefix w s) as [r'|] eqn:E;
    [|discriminate].
  intros [= _ <-]. now apply strip_prefix_length in E.
Qed.

(** Every successful call consumes at least one unit. *)
Lemma parse_consumes (f : nat) :
  (forall s v r, parse_value f s = Some (v, r) -> length r < length s)
  /\ (forall s vs r, parse_elements f s = Some (vs, r) -> length r < length s)
  /\ (forall s ms r, parse_members f s = Some (ms, r) -> length r < length s).
Proof.
  induction f as [|f [IHv [IHe IHm]]]; [repeat split; discriminate|].
  split; [|split].
  - intros s v r. rewrite parse_value_S.
    pose proof (skip_ws_length s) as Hws.
    destruct (skip_ws s) as [|c t]; [discriminate|]. cbn [length] in Hws.
    destruct (c =? 34)%N.
    { destruct (parse_chars t) as [[str r']|] eqn:E; [|discriminate].
      intros [= _ <-]. apply parse_chars_length in E. lia. }
    destruct (c =? 91)%N.
    { destruct (after 93 t) as [r'|] eqn:E.
      - intros [= _ <-]. apply after_length in E. lia.
      - destruct (parse_elements f t) as [[vs r']|] eqn:E'; [|discriminate].
        intros [= _ <-]. apply IHe in E'. lia. }
    destruct (c =? 123)%N.
    { destruct (after 125 t) as [r'|] eqn:E.
      - intros [= _ <-]. apply after_length in E. lia.
      - destruct (parse_members f t) as [[ms r']|] eqn:E'; [|discriminate].
        intros [= _ <-]. apply IHm in E'. lia. }
    destruct (c =? 116)%N.
    { intros H. apply parse_literal_length in H. lia. }
    destruct (c =? 102)%N.
    { intros H. apply parse_literal_length in H. lia. }
    destruct (c =? 110)%N.
    { intros H. apply parse_literal_length in H. lia. }
    destruct (parse_number (c :: t)) as [[lex r']|] eqn:E; [|discriminate].
    intros [= _ <-]. apply parse_number_length in E. cbn [length] in E. lia.
  - intros s vs r. rewrite parse_elements_S.
    destruct (parse_value f s) as [[v r1]|] eqn:Ev; [|discriminate].
    apply IHv in Ev.
    destruct (after 44 r1) as [r2|] eqn:Ec.
    + apply after_length in Ec.
      destruct (parse_elements f r2) as [[vs' r3]|] eqn:Ee; [|discriminate].
      intros [= _ <-]. apply IHe in Ee. lia.
    + destruct (after 93 r1) as [r2|] eqn:Eb; [|discriminate].
      intros [= _ <-]. apply after_length in Eb. lia.
  - intros s ms r. rewrite parse_members_S.
    destruct (after 34 s) as [r0|] eqn:Eq; [|discriminate].
    apply after_length in Eq.
    destruct (parse_chars r0) as [[k r1]|] eqn:Ek; [|discriminate].
    apply parse_chars_length in Ek.
    destruct (after 58 r1) as [r2|] eqn:Ecol; [|discriminate].
    apply after_length in Ecol.
    destruct (parse_value f r2) as [[v r3]|] eqn:Ev; [|discriminate].
    apply IHv in Ev.
    destruct (after 44 r3) as [r4|] eqn:Ec.
    + apply after_length in Ec.
      destruct (parse_members f r4) as [[ms' r5]|] eqn:Em; [|discriminate].
      intros [= _ <-]. apply IHm in Em. lia.
    + destruct (after 125 r3) as [r4|] eqn:Eb; [|discriminate].
      intros [= _ <-]. apply after_length in Eb. lia.
Qed.

(** With fuel above twice the length of the text, one more unit of fuel
    changes nothing. *)
Lemma parse_fuel_step (f : nat) :
  (forall s, 2 * length s + 1 <= f -> parse_value (S f) s = parse_value f s)
  /\ (forall s, 2 * length s + 2 <= f ->
                parse_elements (S f) s = parse_elements f s)
  /\ (forall s, 2 * length s + 2 <= f ->
                parse_members (S f) s = parse_members f s).
Proof.
  induction f as [|f [IHv [IHe IHm]]].
  { repeat split; intros s H; lia. }
  split; [|split].
  - intros s H. rewrite (parse_value_S (S f)), (parse_value_S f).
    pose proof (skip_ws_length s) as Hws.
    destruct (skip_ws s) as [|c t]; [reflexivity|]. cbn [length] in Hws.
    rewrite (IHe t), (IHm t) by lia. reflexivity.
  - intros s H. rewrite (parse_elements_S (S f)), (parse_elements_S f).
    rewrite (IHv s) by lia.
    destruct (parse_value f s) as [[v r1]|] eqn:Ev; [|reflexivity].
    apply (proj1 (parse_consumes f)) in Ev.
    destruct (after 44 r1) as [r2|] eqn:Ec; [|reflexivity].
    apply after_length in Ec. rewrite (IHe r2) by lia. reflexivity.
  - intros s H. rewrite (parse_members_S (S f)), (parse_members_S f).
    destruct (after 34 s) as [r0|] eqn:Eq; [|reflexivity].
    apply after_length in Eq.
    destruct (parse_chars r0) as [[k r1]|] eqn:Ek; [|reflexivity].
    apply parse_chars_length in Ek.
    destruct (after 58 r1) as [r2|] eqn:Ecol; [|reflexivity].
    apply after_length in Ecol.
    rewrite (IHv r2) by lia.
    destruct (parse_value f r2) as [[v r3]|] eqn:Ev; [|reflexivity].
    apply (proj1 (parse_consumes f)) in Ev.
    destruct (after 44 r3) as [r4|] eqn:Ec; [|reflexivity].
    apply after_length in Ec. rewrite (IHm r4) by lia. reflexivity.
Qed.

(** [JSON_parse] does not depend on its fuel: any larger amount gives the
    same result. *)
Theorem JSON_parse_fuel (text : jsstring) (f : nat) :
  2 * length text + 1 <= f ->
  parse_value f text = parse_value (2 * length text + 1) text.
Proof.
  intros H. induction H as [|f H IH]; [reflexivity|].
  rewrite (proj1 (parse_fuel_step f)) by exact H. exact IH.
Qed.

(** ** Reading the history field *)

Lemma asMsg_Msg_value (m : Msg) : asMsg (Msg_value m) = Some m.
Proof. destruct m as [[] c]; reflexivity. Qed.

Lemma filter_guard_Msg_values (h : list Msg) :
  filter_guard (map Msg_value h) = h.
Proof.
  induction h as [|m h IH]; [reflexivity|].
  cbn [map filter_guard]. now rewrite asMsg_Msg_value, IH.
Qed.

Lemma filter_guard_app (l1 l2 : list JSON) :
  filter_guard (l1 ++ l2) = filter_guard l1 ++ filter_guard l2.
Proof.
  induction l1 as [|v l1 IH]; [reflexivity|].
  cbn [app filter_guard]. destruct (asMsg v); [cbn [app]|]; now rewrite IH.
Qed.

(** The guard accepts exactly the objects whose [role] is the string
    [user] or [assistant] and whose [content] is a string. *)
Lemma asMsg_spec (v : JSON) (m : Msg) :
  asMsg v = Some m <->
  exists ms, v = JObject ms
             /\ member (js "role") ms = Some (JString (role_name (role m)))
             /\ member (js "content") ms = Some (JString (content m)).
Proof.
  split.
  - unfold asMsg, isMsg.
    destruct v as [| | | | |ms]; cbn [not_an_object prop]; try discriminate.
    intros H. exists ms. split; [reflexivity|].
    destruct (member (js "role") ms) as [[| | |r| |]|];
      cbn [is_role orb andb] in H; try discriminate H.
    destruct (member (js "content") ms) as [[| | |ct| |]|];
      cbn [typeof_string] in H;
      try (rewrite andb_false_r in H; discriminate H).
    rewrite andb_true_r in H.
    destruct (str_eqb r (js "user")) eqn:Eu.
    + injection H as <-. apply str_eqb_eq in Eu. subst r.
      split; reflexivity.
    + cbn [orb] in H.
      destruct (str_eqb r (js "assistant")) eqn:Ea; [|discriminate H].
      injection H as <-. apply str_eqb_eq in Ea. subst r.
      split; reflexivity.
  - intros [ms [-> [Hr Hc]]]. unfold asMsg, isMsg. cbn [not_an_object prop].
    rewrite Hr, Hc. destruct m as [[] ct]; reflexivity.
Qed.

Lemma isMsg_asMsg (v : JSON) :
  isMsg v = true <-> exists m, asMsg v = Some m.
Proof.
  unfold asMsg. destruct (isMsg v) eqn:E.
  - split; [intros _|reflexivity].
    unfold isMsg in E.
    destruct v as [| | | | |ms]; cbn [not_an_object prop] in *;
      try discriminate E.
    destruct (member (js "role") ms) as [[| | |r| |]|];
      cbn [is_role orb andb] in E; try discriminate E.
    destruct (member (js "content") ms) as [[| | |ct| |]|];
      cbn [typeof_string] in E;
      try (rewrite andb_false_r in E; discriminate E).
    eexists. reflexivity.
  - split; [discriminate|intros [m H]; discriminate H].
Qed.

(** [filter_guard] is the [filter] of the source with the predicate
    [isMsg], its result seen at the type [Msg]. *)
Lemma filter_guard_filter (l : list JSON) :
  map Some (filter_guard l) = map asMsg (filter isMsg l).
Proof.
  induction l as [|v l IH]; [reflexivity|].
  cbn [filter_guard filter]. destruct (isMsg v) eqn:E.
  - destruct (proj1 (isMsg_asMsg v) E) as [m Hm].
    rewrite Hm. cbn [map]. now rewrite IH, Hm.
  - unfold asMsg at 1. now rewrite E.
Qed.

(** The field, when it is there and not empty. *)
Lemma parse_history_text (text : jsstring) :
  Backend.parse_history (Some text) =
  last12 match JSON_parse text with
         | Some (JArray parsed) => filter_guard parsed
         | _ => []
         end.
Proof.
  destruct text as [|c text]; reflexivity.
Qed.

Lemma parse_history_stringify (h : list Msg) :
  Backend.parse_history (Some (JSON_stringify h)) = last12 h.
Proof.
  now rewrite parse_history_text, JSON_parse_stringify,
    filter_guard_Msg_values.
Qed.

(** ** The history on the wire *)

(** C5, as the code has it.  A field that does not parse, or that parses
    to something that is not an array, gives the empty history, and so does
    a missing field; an array gives its valid elements (the objects whose
    role is [user] or [assistant] and whose content is a string), in their
    order, without the others, cut to the last 12 when more than 12 are
    valid. *)
Theorem parse_history_filters_and_caps :
  (forall text, JSON_parse text = None ->
                Backend.parse_history (Some text) = [])
  /\ (forall text v,
         JSON_parse text = Some v ->
         (forall items, v <> JArray items) ->
         Backend.parse_history (Some text) = [])
  /\ Backend.parse_history None = []
  /\ (forall text items,
         JSON_parse text = Some (JArray items) ->
         Backend.parse_history (Some text) = last12 (filter_guard items)
         /\ (length (filter_guard items) <= 12 ->
             Backend.parse_history (Some text) = filter_guard items))
  /\ (forall l1 l2,
         filter_guard (l1 ++ l2) = filter_guard l1 ++ filter_guard l2)
  /\ (forall v, filter_guard [v]
                = match asMsg v with Some m => [m] | None => [] end)
  /\ (forall v m,
         asMsg v = Some m <->
         exists ms,
           v = JObject ms
           /\ member (js "role") ms = Some (JString (role_name (role m)))
           /\ member (js "content") ms = Some (JString (content m))).
Proof.
  repeat apply conj.
  - intros text H. now rewrite parse_history_text, H.
  - intros text v H Hv. rewrite parse_history_text, H.
    destruct v; try reflexivity. now contradiction (Hv items).
  - reflexivity.
  - intros text items H. rewrite parse_history_text, H.
    split; [reflexivity|apply last12_short].
  - apply filter_guard_app.
  - intros v. cbn [filter_guard]. now destruct (asMsg v).
  - apply asMsg_spec.
Qed.

Lemma parse_history_filters_and_caps_witness :
  Backend.parse_history (Some (js "[{'role':")) = []
  /\ Backend.parse_history (Some (jsq "{'role':'user','content':'Hola'}")) = []
  /\ Backend.parse_history (Some mixed_payload)
     = [ {| role := user; content := js "Hola" |};
         {| role := assistant; content := js "Bien" |} ].
Proof.
  pose proof parse_history_filters_and_caps as [Hbad [Hobj [_ [Harr _]]]].
  split; [|split].
  - apply Hbad. vm_compute. reflexivity.
  - apply (Hobj _ (JObject [(js "role", JString (js "user"));
                            (js "content", JString (js "Hola"))])).
    + vm_compute. reflexivity.
    + discriminate.
  - assert (E : exists items,
               JSON_parse mixed_payload = Some (JArray items)
               /\ filter_guard items
                  = [ {| role := user; content := js "Hola" |};
                      {| role := assistant; content := js "Bien" |} ]).
    { eexists. split; vm_compute; reflexivity. }
    destruct E as [items [Hp Hf]].
    destruct (Harr _ _ Hp) as [_ Hshort].
    rewrite <- Hf. apply Hshort. rewrite Hf. simpl. lia.
Defined.

(** C5 as stated fails: of an array of 13 valid entries the first is
    dropped. *)
Lemma parse_history_drops_valid_entries :
  JSON_parse (JSON_stringify (entries 13))
  = Some (JArray (map Msg_value (entries 13)))
  /\ filter_guard (map Msg_value (entries 13)) = entries 13
  /\ Backend.parse_history (Some (JSON_stringify (entries 13)))
     = skipn 1 (entries 13)
  /\ Backend.parse_history (Some (JSON_stringify (entries 13)))
     <> entries 13.
Proof.
  split; [apply JSON_parse_stringify|].
  split; [apply filter_guard_Msg_values|].
  rewrite parse_history_stringify.
  split; [reflexivity|discriminate].
Qed.




(** ** The controller *)

(** Unfold a handler down to the component state. *)
Ltac run_handler :=
  cbv [run startRecording stopAndSend upload_and_play onPressIn onPressOut
       onPlaybackStatus onReplayPress replayAudio
       clearOnPlaybackStatusUpdate do_fetch dispatch setErrorMsg setHistory
       setIsReplayDisabled set_recordingRef set_soundRef
       setOnPlaybackStatusUpdate
       try_catch bind ret throw get modify await]; cbn [fst snd].

(** C8. When the recorder cannot be acquired (prepare or start throws),
    [startRecording] dispatches CANCEL after PRESS_DOWN and sets the error
    message to the message of the exception (or to its default): started
    from [idle] the machine is back in [idle], and from no state is it left
    in [listening]; no recording is stored. *)
Theorem acquisition_failure_cancels :
  forall (d : Device) (c : Ctl) (e : Exn),
    acquire (new_Recording d) = inl e ->
    state (run (startRecording d) c) <> listening
    /\ (state c = idle ->
        state (run (startRecording d) c) = idle
        /\ log_by (startRecording d) c = [Entered listening; Entered idle])
    /\ errorMsg (run (startRecording d) c)
       = Some (nullish (exn_message e) (js "Failed to start recording"))
    /\ recordingRef (run (startRecording d) c) = recordingRef c.
Proof.
  intros d c e H. unfold acquire in H. unfold log_by. run_handler.
  destruct (prepareToRecordAsync (new_Recording d)) as [e1|[]] eqn:Hp.
  - injection H as <-. cbn.
    split; [destruct (state c); discriminate|].
    split; [|split; reflexivity].
    intros ->. rewrite <- app_assoc, skipn_length_app. split; reflexivity.
  - rewrite H. cbn.
    split; [destruct (state c); discriminate|].
    split; [|split; reflexivity].
    intros ->. rewrite <- app_assoc, skipn_length_app. split; reflexivity.
Qed.

Lemma acquisition_failure_cancels_witness :
  state (run (startRecording dev_denied) initial) = idle
  /\ errorMsg (run (startRecording dev_denied) initial)
     = Some (js "Missing audio recording permissions.").
Proof.
  destruct (@acquisition_failure_cancels dev_denied initial
              (Error (js "Missing audio recording permissions.")) eq_refl)
    as [_ [H [E _]]].
  exact (conj (proj1 (H eq_refl)) E).
Defined.

Section StopAndSend.

(** A release while [listening], with a live recording that stops
    cleanly. *)
Variables (d : Device) (c : Ctl) (rec : Recording).
Hypothesis Hstate : state c = listening.
Hypothesis Hrec : recordingRef c = Some rec.
Hypothesis Hstop : stopAndUnloadAsync rec = inr tt.

(** Without a location the handler throws right after PRESS_UP. *)
Lemma stopAndSend_no_uri :
  truthy (getURI rec) = false ->
  run (stopAndSend d) c =
  {| state := error;
     errorMsg := Some (js "No recording URI");
     history := history c;
     isReplayDisabled := isReplayDisabled c;
     recordingRef := None;
     soundRef := soundRef c;
     watcher := watcher c;
     log := log c ++ [Entered uploading; Entered error] |}.
Proof.
  intros Hu. run_handler. rewrite Hrec, Hstop. cbn. rewrite Hstate.
  destruct (getURI rec) as [[|x u]|]; try discriminate Hu;
    cbn; now rewrite <- app_assoc.
Qed.

Variable u : jsstring.
Hypothesis Huri : getURI rec = Some u.
Hypothesis Hu : u <> [].

(** A remote call that does not deliver a turn: the request went out
    while [uploading], the machine ends in [error], with some message. *)
Lemma stopAndSend_remote_failure :
  remote_result (fetch d (turn_request d c u)) = None ->
  exists msg,
    run (stopAndSend d) c =
    {| state := error;
       errorMsg := Some msg;
       history := history c;
       isReplayDisabled := isReplayDisabled c;
       recordingRef := None;
       soundRef := soundRef c;
       watcher := watcher c;
       log := log c ++ [ Entered uploading; Entered uploading;
                         Fetched (turn_request d c u); Entered error ] |}
    /\ msg =
       match fetch d (turn_request d c u) with
       | inl e => nullish (exn_message e) (js "Upload/play error")
       | inr resp =>
           if ok resp then
             match resp_json resp with
             | inl e => nullish (exn_message e) (js "Upload/play error")
             | inr _ => js "No audioBase64 in response"
             end
           else
             match resp_text resp with
             | inl e => nullish (exn_message e) (js "Upload/play error")
             | inr t => js "Backend " ++ decimal (http_status resp)
                        ++ js ": " ++ t
             end
       end.
Proof.
  intros Hf. eexists. split; [|reflexivity].
  unfold remote_result in Hf.
  run_handler. rewrite Hrec, Hstop. cbn. rewrite Hstate, Huri.
  destruct u as [|x u']; [contradiction Hu; reflexivity|]. cbn.
  change (Client.uri (audio (form (turn_request d c (x :: u'))))) with (x :: u').
  fold (turn_request d c (x :: u')).
  destruct (fetch d (turn_request d c (x :: u'))) as [e|resp].
  - cbn. now rewrite <- !app_assoc.
  - cbn. destruct (ok resp).
    + destruct (resp_json resp) as [e|r]; cbn.
      * now rewrite <- !app_assoc.
      * destruct (truthy (audioBase64 r)); [discriminate Hf|].
        cbn. now rewrite <- !app_assoc.
    + destruct (resp_text resp) as [e|t]; cbn; now rewrite <- !app_assoc.
Qed.

(** A delivered turn: the history takes the two entries exactly when the
    response has a transcript, whatever the player does afterwards. *)
Lemma stopAndSend_remote_success (r : TurnResponse) :
  remote_result (fetch d (turn_request d c u)) = Some r ->
  history (run (stopAndSend d) c) =
    match transcript r with
    | Some t => appendTurn (Some t) (replyText r) (history c)
    | None => history c
    end
  /\ exists after,
       log (run (stopAndSend d) c)
       = log c ++ Entered uploading :: Entered uploading
                  :: Fetched (turn_request d c u) :: after.
Proof.
  intros Hf. unfold remote_result in Hf.
  run_handler. rewrite Hrec, Hstop. cbn. rewrite Hstate, Huri.
  destruct u as [|x u']; [contradiction Hu; reflexivity|]. cbn.
  destruct (fetch d (turn_request d c (x :: u'))) as [e|resp];
    [discriminate Hf|].
  cbn. destruct (ok resp); [|discriminate Hf].
  destruct (resp_json resp) as [e|r']; [discriminate Hf|].
  destruct (truthy (audioBase64 r')) eqn:Ha; [|discriminate Hf].
  injection Hf as <-. cbn.
  destruct (transcript r') as [t|]; cbn;
    destruct (soundRef c) as [old|]; cbn;
    try (destruct (stopAsync old) as [?|[]]; cbn;
         destruct (unloadAsync old) as [?|[]]; cbn);
    destruct (Sound_createAsync d _) as [?|snd]; cbn;
    try (destruct (playAsync snd) as [?|[]]; cbn);
    (split; [reflexivity|]);
    rewrite <- !app_assoc; eexists; reflexivity.
Qed.

(** When all goes well the machine ends in [speaking], with a watcher for
    the end of the playback. *)
Lemma stopAndSend_plays (r : TurnResponse) (snd : Sound) :
  remote_result (fetch d (turn_request d c u)) = Some r ->
  soundRef c = None ->
  Sound_createAsync d (js "data:audio/mpeg;base64,"
                       ++ nullish (audioBase64 r) []) = inr snd ->
  playAsync snd = inr tt ->
  state (run (stopAndSend d) c) = speaking
  /\ soundRef (run (stopAndSend d) c) = Some snd
  /\ watcher (run (stopAndSend d) c) = true
  /\ errorMsg (run (stopAndSend d) c) = None
  /\ log (run (stopAndSend d) c)
     = log c ++ [ Entered uploading; Entered uploading;
                  Fetched (turn_request d c u); Entered speaking ].
Proof.
  intros Hf Hs Hc Hp. unfold remote_result in Hf.
  run_handler. rewrite Hrec, Hstop. cbn. rewrite Hstate, Huri.
  destruct u as [|x u']; [contradiction Hu; reflexivity|]. cbn.
  destruct (fetch d (turn_request d c (x :: u'))) as [e|resp];
    [discriminate Hf|].
  cbn. destruct (ok resp); [|discriminate Hf].
  destruct (resp_json resp) as [e|r']; [discriminate Hf|].
  destruct (truthy (audioBase64 r')) eqn:Ha; [|discriminate Hf].
  injection Hf as <-. cbn.
  cbn in Hc.
  destruct (transcript r') as [t|]; cbn; rewrite Hs; cbn;
    rewrite Hc; cbn; rewrite Hp; cbn; rewrite <- !app_assoc;
    repeat split; reflexivity.
Qed.

End StopAndSend.

(** C2, as the code has it.  When the recorder has no location after the
    stop, [stopAndSend] sends no request, sets the error message to
    [No recording URI] and leaves the history as it was; PRESS_UP is
    dispatched before the location is looked at, so the machine goes
    through [uploading], and the UPLOAD_ERR of the catch block takes it to
    [error]. *)
Theorem press_up_without_uri_aborts :
  forall (d : Device) (c : Ctl) (rec : Recording),
    state c = listening ->
    recordingRef c = Some rec ->
    stopAndUnloadAsync rec = inr tt ->
    truthy (getURI rec) = false ->
    log_by (stopAndSend d) c = [Entered uploading; Entered error]
    /\ sent_by (stopAndSend d) c = []
    /\ errorMsg (run (stopAndSend d) c) = Some (js "No recording URI")
    /\ history (run (stopAndSend d) c) = history c
    /\ state (run (stopAndSend d) c) = error.
Proof.
  intros d c rec Hs Hr Hstop Hu.
  unfold sent_by, entered_by, log_by.
  rewrite (@stopAndSend_no_uri d c rec Hs Hr Hstop Hu).
  cbn [log errorMsg history state].
  rewrite skipn_length_app. repeat split; reflexivity.
Qed.

Lemma press_up_without_uri_aborts_witness :
  log_by (stopAndSend dev_no_uri) (pressed dev_no_uri)
  = [Entered uploading; Entered error]
  /\ sent_by (stopAndSend dev_no_uri) (pressed dev_no_uri) = []
  /\ errorMsg (run (stopAndSend dev_no_uri) (pressed dev_no_uri))
     = Some (js "No recording URI")
  /\ history (run (stopAndSend dev_no_uri) (pressed dev_no_uri))
     = history (pressed dev_no_uri)
  /\ state (run (stopAndSend dev_no_uri) (pressed dev_no_uri)) = error.
Proof.
  exact (@press_up_without_uri_aborts dev_no_uri (pressed dev_no_uri)
           rec_no_uri eq_refl eq_refl eq_refl eq_refl).
Defined.

(** C2 as stated fails: a release while [listening], with a recorder that
    stopped and has no location, makes the machine enter [uploading]. *)
Lemma press_up_without_uri_enters_uploading :
  state (pressed dev_no_uri) = listening
  /\ recordingRef (pressed dev_no_uri) = Some rec_no_uri
  /\ stopAndUnloadAsync rec_no_uri = inr tt
  /\ getURI rec_no_uri = None
  /\ entered_by (stopAndSend dev_no_uri) (pressed dev_no_uri)
     = [uploading; error]
  /\ In uploading (entered_by (stopAndSend dev_no_uri) (pressed dev_no_uri)).
Proof.
  repeat split; try reflexivity. left. reflexivity.
Qed.

(** C4, as the code has it.  A release while [listening] with a
    recording at [u]; the request is answered while the machine is in
    [uploading].  When the answer is a success with audio and a
    transcript, the history becomes the old one followed by a user entry
    with the transcript and an assistant entry with the reply text (the
    empty string when there is none), cut to its last 12 entries; when the
    answer has no transcript, and when the remote call fails, the history
    is unchanged. *)
Theorem history_after_turn :
  forall (d : Device) (c : Ctl) (rec : Recording) (u : jsstring),
    state c = listening ->
    recordingRef c = Some rec ->
    stopAndUnloadAsync rec = inr tt ->
    getURI rec = Some u ->
    u <> [] ->
    (forall r : TurnResponse,
        remote_result (fetch d (turn_request d c u)) = Some r ->
        (exists after,
            log_by (stopAndSend d) c
            = Entered uploading :: Entered uploading
              :: Fetched (turn_request d c u) :: after)
        /\ history (run (stopAndSend d) c) =
           match transcript r with
           | Some t =>
               last12 (history c
                       ++ [ {| role := user; content := t |};
                            {| role := assistant;
                               content := nullish (replyText r) [] |} ])
           | None => history c
           end)
    /\ (remote_result (fetch d (turn_request d c u)) = None ->
        history (run (stopAndSend d) c) = history c).
Proof.
  intros d c rec u Hs Hr Hstop Hu Hne. split.
  - intros r Hf.
    destruct (@stopAndSend_remote_success d c rec Hs Hr Hstop u Hu Hne r Hf)
      as [Hh [after Ha]].
    split.
    + exists after. unfold log_by. rewrite Ha. apply skipn_length_app.
    + rewrite Hh. destruct (transcript r); reflexivity.
  - intros Hf.
    destruct (@stopAndSend_remote_failure d c rec Hs Hr Hstop u Hu Hne Hf)
      as [msg [E _]].
    rewrite E. reflexivity.
Qed.

Lemma history_after_turn_witness :
  history (run (stopAndSend dev_hola) (pressed dev_hola))
  = [ {| role := user; content := js "Hola" |};
      {| role := assistant; content := reply_hola |} ].
Proof.
  refine (proj2 (proj1 (@history_after_turn dev_hola (pressed dev_hola) rec_ok
                   (js "file:///cache/Audio/recording-1.m4a")
                   eq_refl eq_refl eq_refl eq_refl _) _ eq_refl)).
  discriminate.
Defined.

(** C4 as stated fails: the earlier backend of the repository answers
    with the audio alone; the response is a success, the machine goes to
    [speaking], and no entry is appended. *)
Lemma audio_only_response_appends_nothing :
  remote_result
    (fetch dev_audio_only
       (turn_request dev_audio_only (pressed dev_audio_only)
          (js "file:///cache/Audio/recording-1.m4a")))
  = Some {| audioBase64 := Some (js "SUQzBAAAAAAA");
            transcript := None; replyText := None |}
  /\ state (pressed dev_audio_only) = listening
  /\ entered_by (stopAndSend dev_audio_only) (pressed dev_audio_only)
     = [uploading; uploading; speaking]
  /\ history (pressed dev_audio_only) = []
  /\ history (run (stopAndSend dev_audio_only) (pressed dev_audio_only)) = []
  /\ length (history (run (stopAndSend dev_audio_only)
                         (pressed dev_audio_only)))
     <> length (history (pressed dev_audio_only)) + 2.
Proof. repeat split; try reflexivity. discriminate. Qed.

(** C7. A release while [listening] with a recording at [u]: when the
    request fails (the call rejects, the status is not a success, or the
    body has no audio), the request went out once while the machine was in
    [uploading], the machine ends in [error] with a message, and the
    history is unchanged; CANCEL then takes it from [error] to [idle]. *)
Theorem remote_failure_goes_to_error :
  forall (d : Device) (c : Ctl) (rec : Recording) (u : jsstring),
    state c = listening ->
    recordingRef c = Some rec ->
    stopAndUnloadAsync rec = inr tt ->
    getURI rec = Some u ->
    u <> [] ->
    ((exists e, fetch d (turn_request d c u) = inl e)
     \/ (exists resp, fetch d (turn_request d c u) = inr resp
                      /\ ok resp = false)
     \/ (exists resp r, fetch d (turn_request d c u) = inr resp
                        /\ ok resp = true
                        /\ resp_json resp = inr r
                        /\ truthy (audioBase64 r) = false)) ->
    state (run (stopAndSend d) c) = error
    /\ history (run (stopAndSend d) c) = history c
    /\ (exists msg, errorMsg (run (stopAndSend d) c) = Some msg)
    /\ log_by (stopAndSend d) c
       = [ Entered uploading; Entered uploading;
           Fetched (turn_request d c u); Entered error ]
    /\ reducer (state (run (stopAndSend d) c)) CANCEL = idle.
Proof.
  intros d c rec u Hs Hr Hstop Hu Hne Hfail.
  assert (Hf : remote_result (fetch d (turn_request d c u)) = None).
  { unfold remote_result.
    destruct Hfail as [[e ->]|[[resp [-> Hok]]|[resp [r [-> [Hok [Hj Ha]]]]]]].
    - reflexivity.
    - now rewrite Hok.
    - now rewrite Hok, Hj, Ha. }
  destruct (@stopAndSend_remote_failure d c rec Hs Hr Hstop u Hu Hne Hf)
    as [msg [E _]].
  unfold log_by. rewrite E.
  cbn [state history errorMsg log].
  rewrite skipn_length_app.
  repeat split; try reflexivity. exists msg. reflexivity.
Qed.

Lemma remote_failure_goes_to_error_witness :
  state (run (stopAndSend dev_500) (pressed dev_500)) = error
  /\ history (run (stopAndSend dev_500) (pressed dev_500))
     = history (pressed dev_500)
  /\ reducer (state (run (stopAndSend dev_500) (pressed dev_500))) CANCEL
     = idle.
Proof.
  assert (Hne : js "file:///cache/Audio/recording-1.m4a" <> []) by discriminate.
  destruct (@remote_failure_goes_to_error dev_500 (pressed dev_500) rec_ok
              (js "file:///cache/Audio/recording-1.m4a")
              eq_refl eq_refl eq_refl eq_refl Hne
              (or_intror (or_introl (ex_intro _ resp_500 (conj eq_refl eq_refl)))))
    as [H1 [H2 [_ [_ H6]]]].
  exact (conj H1 (conj H2 H6)).
Defined.

(** What the handlers do to the history and to the state, whatever the
    device and the network do. *)
Lemma stopAndSend_history (d : Device) (c : Ctl) :
  history (run (stopAndSend d) c) = history c
  \/ exists t r,
       history (run (stopAndSend d) c) = appendTurn (Some t) r (history c).
Proof.
  run_handler.
  destruct (recordingRef c) as [rec|]; cbn; [|left; reflexivity].
  destruct (stopAndUnloadAsync rec) as [e|[]]; cbn; [left; reflexivity|].
  destruct (getURI rec) as [[|x u]|]; cbn; try (left; reflexivity).
  destruct (fetch d _) as [e|resp]; cbn; [left; reflexivity|].
  destruct (ok resp); cbn;
    [|destruct (resp_text resp); cbn; left; reflexivity].
  destruct (resp_json resp) as [e|r]; cbn; [left; reflexivity|].
  destruct (truthy (audioBase64 r)); cbn; [|left; reflexivity].
  destruct (transcript r) as [t|]; cbn;
    destruct (soundRef c) as [old|]; cbn;
    try (destruct (stopAsync old) as [?|[]]; cbn;
         destruct (unloadAsync old) as [?|[]]; cbn);
    destruct (Sound_createAsync d _) as [?|snd]; cbn;
    try (destruct (playAsync snd) as [?|[]]; cbn);
    solve [left; reflexivity | right; eexists; eexists; reflexivity].
Qed.

Lemma startRecording_history (d : Device) (c : Ctl) :
  history (run (startRecording d) c) = history c.
Proof.
  run_handler.
  destruct (prepareToRecordAsync (new_Recording d)) as [e|[]]; cbn;
    [reflexivity|].
  destruct (startAsync (new_Recording d)) as [e|[]]; reflexivity.
Qed.

(** Without a recording [stopAndSend] returns at once. *)
Lemma stopAndSend_without_recording (d : Device) (c : Ctl) :
  recordingRef c = None -> run (stopAndSend d) c = c.
Proof.
  intros H. run_handler. rewrite H. destruct c; reflexivity.
Qed.

(** When the stop itself throws, PRESS_UP has not been dispatched: the
    message is set and the UPLOAD_ERR of the catch block finds the machine
    in [listening], where it changes nothing. *)
Lemma stopAndSend_stop_failure (d : Device) (c : Ctl) (rec : Recording)
  (e : Exn) :
  state c = listening ->
  recordingRef c = Some rec ->
  stopAndUnloadAsync rec = inl e ->
  state (run (stopAndSend d) c) = listening
  /\ errorMsg (run (stopAndSend d) c)
     = Some (nullish (exn_message e) (js "Upload/play error"))
  /\ log_by (stopAndSend d) c = [Entered listening].
Proof.
  intros Hs Hr He. unfold log_by. run_handler.
  rewrite Hr, He. cbn. rewrite Hs.
  rewrite skipn_length_app. repeat split; reflexivity.
Qed.

(** A replay changes neither the state of the machine nor the history. *)
Lemma replayAudio_keeps_state_and_history (c : Ctl) :
  state (run onReplayPress c) = state c
  /\ history (run onReplayPress c) = history c.
Proof.
  run_handler. destruct (isReplayDisabled c); cbn; [split; reflexivity|].
  destruct (soundRef c) as [sound|]; cbn; [|split; reflexivity].
  destruct (stopAsync sound) as [e|[]]; cbn; [split; reflexivity|].
  destruct (playAsync sound) as [e|[]]; cbn; split; reflexivity.
Qed.

(** No handler of the component dispatches CANCEL in [error]: the button
    reacts in [idle] and in [listening] only, and the playback watcher
    dispatches PLAY_END. *)
Lemma handlers_stay_in_error (d : Device) (c : Ctl) (finished : bool) :
  state c = error ->
  state (run (onPressIn d) c) = error
  /\ state (run (onPressOut d) c) = error
  /\ state (run (onPlaybackStatus finished) c) = error
  /\ state (run onReplayPress c) = error.
Proof.
  intros H.
  rewrite (proj1 (replayAudio_keeps_state_and_history c)).
  run_handler. rewrite H.
  destruct (watcher c && finished); cbn; rewrite ?H; repeat split; reflexivity.
Qed.

(** ** The history cap *)

Lemma appendTurn_last12 (t r : option jsstring) (prev : list ChatMsg) :
  appendTurn t r prev =
  last12 (prev ++ [ {| role := user; content := nullish t [] |};
                    {| role := assistant; content := nullish r [] |} ]).
Proof. reflexivity. Qed.

Lemma appendTurn_length (t r : option jsstring) (prev : list ChatMsg) :
  length (appendTurn t r prev) <= 12.
Proof. rewrite appendTurn_last12. apply last12_length. Qed.

Lemma appendTurn_below_cap (t r : option jsstring) (prev : list ChatMsg) :
  length prev <= 10 ->
  appendTurn t r prev =
  prev ++ [ {| role := user; content := nullish t [] |};
            {| role := assistant; content := nullish r [] |} ].
Proof.
  intros H. rewrite appendTurn_last12. apply last12_short.
  rewrite length_app. simpl. lia.
Qed.

Lemma appendTurn_at_cap (t r : option jsstring) (prev : list ChatMsg) :
  length prev = 12 ->
  appendTurn t r prev =
  skipn 2 prev ++ [ {| role := user; content := nullish t [] |};
                    {| role := assistant; content := nullish r [] |} ].
Proof.
  intros H. rewrite appendTurn_last12, last12_skipn, length_app, H.
  simpl length. change (12 + 2 - 12) with 2.
  rewrite skipn_app, H. reflexivity.
Qed.

(** The history of every reachable component state is within the cap. *)
Lemma reachable_history_cap (c : Ctl) :
  reachable c -> length (history c) <= 12.
Proof.
  induction 1 as [|d c _ IH|d c _ IH|b c _ IH|c _ IH].
  - cbn. lia.
  - unfold onPressIn. cbv [run bind get]. cbn [fst snd].
    destruct (state c); try exact IH.
    change (snd (startRecording d c)) with (run (startRecording d) c).
    now rewrite startRecording_history.
  - unfold onPressOut. cbv [run bind get]. cbn [fst snd].
    destruct (state c); try exact IH.
    change (snd (stopAndSend d c)) with (run (stopAndSend d) c).
    destruct (stopAndSend_history d c) as [->|[t [r ->]]];
      [exact IH|apply appendTurn_length].
  - run_handler. destruct (watcher c && b); exact IH.
  - now rewrite (proj2 (replayAudio_keeps_state_and_history c)).
Qed.

(** C3. However many turns are appended, the history never holds more
    than 12 entries; appending the two entries of a turn to a history of 12
    leaves 12, without the 2 oldest and with the others in their order,
    followed by the two new ones.  The backend caps what it reads at 12 as
    well, and no sequence of presses, releases, replays and playback
    notifications brings the component to a history of more than 12
    entries. *)
Theorem history_cap_sliding_window :
  (forall turns, length (history_after turns) <= 12)
  /\ (forall t r prev, length (appendTurn t r prev) <= 12)
  /\ (forall t r prev,
         length prev = 12 ->
         length (appendTurn (Some t) r prev) = 12
         /\ appendTurn (Some t) r prev =
            skipn 2 prev ++ [ {| role := user; content := t |};
                              {| role := assistant; content := nullish r [] |} ])
  /\ (forall raw, length (Backend.parse_history raw) <= 12)
  /\ (forall c, reachable c -> length (history c) <= 12).
Proof.
  split; [|split; [|split; [|split]]]; [| | | |exact reachable_history_cap].
  - intros turns. unfold history_after.
    induction turns as [|tr turns IH] using rev_ind; simpl; [lia|].
    rewrite fold_left_app. simpl. apply appendTurn_length.
  - apply appendTurn_length.
  - intros t r prev H. rewrite appendTurn_at_cap by exact H. split.
    + rewrite length_app, length_skipn, H. reflexivity.
    + reflexivity.
  - intros raw. exact (last12_length _).
Qed.

Lemma history_cap_sliding_window_witness :
  length (appendTurn (Some (js "Hola")) (Some reply_hola) (entries 12)) = 12
  /\ appendTurn (Some (js "Hola")) (Some reply_hola) (entries 12)
     = skipn 2 (entries 12)
       ++ [ {| role := user; content := js "Hola" |};
            {| role := assistant; content := reply_hola |} ].
Proof.
  exact (proj1 (proj2 (proj2 history_cap_sliding_window))
           (js "Hola") (Some reply_hola) (entries 12) eq_refl).
Defined.

(** ** The endpoint *)

Lemma method_is_true (req : Backend.Request) (name : jsstring) :
  Backend.method_is req name = true <-> Backend.method req = Some name.
Proof.
  unfold Backend.method_is. destruct (Backend.method req) as [m|].
  - rewrite str_eqb_eq. split; congruence.
  - split; discriminate.
Qed.

Lemma method_is_false (req : Backend.Request) (name : jsstring) :
  Backend.method req <> Some name -> Backend.method_is req name = false.
Proof.
  intros H. destruct (Backend.method_is req name) eqn:E; [|reflexivity].
  apply method_is_true in E. contradiction.
Qed.

Ltac run_backend :=
  cbv [Backend.handler Backend.call Backend.send Backend.setHeader
       try_catch bind ret throw get modify await]; cbn [fst snd].

(** C10. A GET is answered with status 200 and the body
    [{ok: true, route: "turn"}]; a request whose method is neither GET nor
    POST is answered with status 405, the header [Allow: POST] and the body
    [{error: "Method Not Allowed"}]; in both cases the handler parses no
    body and calls no collaborator. *)
Theorem method_dispatch :
  forall (client : Backend.OpenAI) (req : Backend.Request),
    (Backend.method req = Some (js "GET") ->
     snd (Backend.handler client req Backend.fresh)
     = {| Backend.status := Some 200;
          Backend.headers := [];
          Backend.sent := Some (Backend.RouteBody true (js "turn"));
          Backend.calls := [] |})
    /\ (Backend.method req <> Some (js "GET") ->
        Backend.method req <> Some (js "POST") ->
        snd (Backend.handler client req Backend.fresh)
        = {| Backend.status := Some 405;
             Backend.headers := [(js "Allow", js "POST")];
             Backend.sent :=
               Some (Backend.ErrorBody (js "Method Not Allowed"));
             Backend.calls := [] |}).
Proof.
  intros client req. split.
  - intros H. unfold Backend.handler.
    rewrite (proj2 (method_is_true req (js "GET")) H). reflexivity.
  - intros Hg Hp. unfold Backend.handler.
    rewrite (@method_is_false req _ Hg), (@method_is_false req _ Hp).
    reflexivity.
Qed.

Lemma method_dispatch_witness :
  Backend.status
    (snd (Backend.handler (openai None) (request "GET" mixed_payload)
            Backend.fresh)) = Some 200
  /\ Backend.status
       (snd (Backend.handler (openai None) (request "DELETE" mixed_payload)
               Backend.fresh)) = Some 405.
Proof.
  split.
  - rewrite (proj1 (method_dispatch (openai None) (request "GET" mixed_payload))
               eq_refl).
    reflexivity.
  - rewrite (proj2 (method_dispatch (openai None)
                      (request "DELETE" mixed_payload))).
    + reflexivity.
    + discriminate.
    + discriminate.
Defined.

(** C9. For a POST whose form parses and whose audio is transcribed, the
    chat request carries the system prompt, then the entries of the
    history that [parseForm] read, in their order and with their roles,
    then one user message with the transcription (the empty string when
    the transcriber gives no text).  The reply is the content of the
    message of the first choice of the completion, the empty string
    included; when there is no choice, no message or no content it is the
    fallback reply.  The speech is made from the reply, and the reply is
    returned as [replyText]. *)
Theorem chat_request_messages :
  forall (client : Backend.OpenAI) (req : Backend.Request)
         (p : Backend.Parsed) (stt : Backend.TranscriptionJSON)
         (messages : list Backend.ChatCompletionMessageParam),
    Backend.method req = Some (js "POST") ->
    Backend.parseForm (Backend.body req) = inr p ->
    Backend.transcriptions_create client
      (Backend.file_path p) (Backend.upload_name p) = inr stt ->
    messages
    = {| Backend.p_role := Backend.role_system;
         Backend.p_content := Backend.SYSTEM_PROMPT |}
      :: map (fun m => {| Backend.p_role := Backend.chat_role (role m);
                          Backend.p_content := content m |})
             (Backend.history p)
      ++ [ {| Backend.p_role := Backend.role_user;
              Backend.p_content := nullish (Backend.text stt) [] |} ] ->
    nth_error (Backend.calls (snd (Backend.handler client req Backend.fresh))) 2
    = Some (Backend.CallChat messages)
    /\ (forall form,
           Backend.body req = inr form ->
           Backend.history p
           = Backend.parse_history
               (Backend.fieldToString
                  (Backend.assoc (js "history") (Backend.fields form))))
    /\ (forall chat reply,
           Backend.chat_completions_create client messages = inr chat ->
           reply
           = match Backend.choices chat with
             | {| Backend.message :=
                    Some {| Backend.m_content := Some c |} |} :: _ => c
             | _ => [191%N] ++ js "Puedes repetir, por favor?"
             end ->
           nth_error
             (Backend.calls (snd (Backend.handler client req Backend.fresh))) 3
           = Some (Backend.CallSpeech reply)
           /\ forall audio,
                Backend.speech_create client reply = inr audio ->
                snd (Backend.handler client req Backend.fresh)
                = {| Backend.status := Some 200;
                     Backend.headers :=
                       [(js "Content-Type", js "application/json");
                        (js "Cache-Control", js "no-store")];
                     Backend.sent :=
                       Some (Backend.TurnBody
                               {| Backend.audioBase64 := audio;
                                  Backend.transcript :=
                                    nullish (Backend.text stt) [];
                                  Backend.replyText := reply |});
                     Backend.calls :=
                       [ Backend.CallParseForm;
                         Backend.CallTranscribe (Backend.file_path p)
                                                (Backend.upload_name p);
                         Backend.CallChat messages;
                         Backend.CallSpeech reply ] |}).
Proof.
  intros client req p stt messages Hm Hp Hs ->.
  assert (Hget : Backend.method_is req (js "GET") = false).
  { apply method_is_false. rewrite Hm. discriminate. }
  assert (Hpost : Backend.method_is req (js "POST") = true).
  { now apply method_is_true. }
  unfold Backend.handler. rewrite Hget, Hpost. cbn [negb].
  split; [|split].
  - run_backend. rewrite Hp. cbn. rewrite Hs. cbn.
    fold (Backend.build_messages (Backend.history p)
            (nullish (Backend.text stt) [])).
    destruct (Backend.chat_completions_create client _) as [e|chat]; cbn;
      [reflexivity|].
    destruct (Backend.speech_create client _) as [e|audio]; reflexivity.
  - intros form Hb. unfold Backend.parseForm in Hp. rewrite Hb in Hp.
    destruct (Backend.pick_file (Backend.files form)) as [[[[|x path]|] n]|];
      try discriminate Hp.
    injection Hp as <-. reflexivity.
  - intros chat reply Hc Hr.
    assert (E : nullish (Backend.first_content chat) Backend.FALLBACK_REPLY
                = reply).
    { rewrite Hr. unfold Backend.first_content.
      destruct (Backend.choices chat) as [|[[[[c|]]|]] rest]; reflexivity. }
    split.
    + run_backend. rewrite Hp. cbn. rewrite Hs. cbn.
      unfold Backend.build_messages. cbn in Hc. cbn. rewrite Hc. cbn.
      cbn in E. rewrite E.
      destruct (Backend.speech_create client reply) as [e|audio]; reflexivity.
    + intros audio Ha. run_backend. rewrite Hp. cbn. rewrite Hs. cbn.
      unfold Backend.build_messages. cbn in Hc. cbn. rewrite Hc. cbn.
      cbn in E. rewrite E. rewrite Ha. reflexivity.
Qed.

Lemma chat_request_messages_witness :
  nth_error
    (Backend.calls
       (snd (Backend.handler (openai None) (request "POST" mixed_payload)
               Backend.fresh))) 2
  = Some (Backend.CallChat
            [ {| Backend.p_role := Backend.role_system;
                 Backend.p_content := Backend.SYSTEM_PROMPT |};
              {| Backend.p_role := Backend.role_user;
                 Backend.p_content := js "Hola" |};
              {| Backend.p_role := Backend.role_assistant;
                 Backend.p_content := js "Bien" |};
              {| Backend.p_role := Backend.role_user;
                 Backend.p_content := js "Hola" |} ])
  /\ Backend.sent
       (snd (Backend.handler (openai (Some reply_hola))
               (request "POST" mixed_payload) Backend.fresh))
     = Some (Backend.TurnBody
               {| Backend.audioBase64 := js "SUQzBAAAAAAA";
                  Backend.transcript := js "Hola";
                  Backend.replyText := reply_hola |})
  /\ nth_error
       (Backend.calls
          (snd (Backend.handler (openai (Some reply_hola))
                  (request "POST" mixed_payload) Backend.fresh))) 3
     = Some (Backend.CallSpeech reply_hola)
  /\ Backend.sent
       (snd (Backend.handler (openai (Some []))
               (request "POST" mixed_payload) Backend.fresh))
     = Some (Backend.TurnBody
               {| Backend.audioBase64 := js "SUQzBAAAAAAA";
                  Backend.transcript := js "Hola";
                  Backend.replyText := [] |})
  /\ Backend.sent
       (snd (Backend.handler (openai None)
               (request "POST" mixed_payload) Backend.fresh))
     = Some (Backend.TurnBody
               {| Backend.audioBase64 := js "SUQzBAAAAAAA";
                  Backend.transcript := js "Hola";
                  Backend.replyText :=
                    [191%N] ++ js "Puedes repetir, por favor?" |}).
Proof.
  pose (p := {| Backend.file_path := js "/tmp/upload_1";
                Backend.file_name := Some (js "recording-1.m4a");
                Backend.history :=
                  [ {| role := user; content := js "Hola" |};
                    {| role := assistant; content := js "Bien" |} ] |}).
  pose (stt := {| Backend.text := Some (js "Hola") |}).
  pose (completion := fun content =>
          {| Backend.choices :=
               [{| Backend.message :=
                     Some {| Backend.m_content := content |} |}] |}).
  pose proof (fun content =>
                @chat_request_messages (openai content)
                  (request "POST" mixed_payload) p stt _
                  eq_refl eq_refl eq_refl eq_refl) as T.
  split; [exact (proj1 (T None))|].
  split.
  { destruct (proj2 (proj2 (T (Some reply_hola)))
                (completion (Some reply_hola)) reply_hola eq_refl eq_refl)
      as [_ H].
    rewrite (H (js "SUQzBAAAAAAA") eq_refl). reflexivity. }
  split.
  { exact (proj1 (proj2 (proj2 (T (Some reply_hola)))
                    (completion (Some reply_hola)) reply_hola
                    eq_refl eq_refl)). }
  split.
  { destruct (proj2 (proj2 (T (Some [])))
                (completion (Some [])) [] eq_refl eq_refl) as [_ H].
    rewrite (H (js "SUQzBAAAAAAA") eq_refl). reflexivity. }
  destruct (proj2 (proj2 (T None))
              (completion None) _ eq_refl eq_refl) as [_ H].
  rewrite (H (js "SUQzBAAAAAAA") eq_refl). reflexivity.
Defined.

(** ** The scenarios of the specification, run on the model *)

(** A turn from end to end: press, release, the answer with [Hola], the
    end of the playback. *)
Example scenario_turn :
  state (pressed dev_hola) = listening
  /\ state (run (onPressOut dev_hola) (pressed dev_hola)) = speaking
  /\ history (run (onPressOut dev_hola) (pressed dev_hola))
     = [ {| role := user; content := js "Hola" |};
         {| role := assistant; content := reply_hola |} ]
  /\ state (run (onPlaybackStatus true)
              (run (onPressOut dev_hola) (pressed dev_hola))) = idle
  /\ entered_by (onPressIn dev_hola ;; onPressOut dev_hola ;;
                  onPlaybackStatus true)%eff initial
     = [listening; uploading; uploading; speaking; idle].
Proof. repeat split; reflexivity. Qed.

(** A turn on a history of 12 entries. *)
Example scenario_turn_at_cap :
  length (history (pressed_with dev_hola 12)) = 12
  /\ history (run (onPressOut dev_hola) (pressed_with dev_hola 12))
     = skipn 2 (entries 12)
       ++ [ {| role := user; content := js "Hola" |};
            {| role := assistant; content := reply_hola |} ]
  /\ length (history (run (onPressOut dev_hola) (pressed_with dev_hola 12)))
     = 12.
Proof. repeat split; reflexivity. Qed.

(** The request of a turn on a history of 8 entries carries the last 6,
    and the backend reads these 6. *)
Example scenario_window :
  Backend.parse_history
    (Some (history_field
             (form (turn_request dev_hola (pressed_with dev_hola 8)
                      (js "file:///cache/Audio/recording-1.m4a")))))
  = skipn 2 (entries 8).
Proof. vm_compute. reflexivity. Qed.

(** The network is down: [error], the message of the exception, the
    history as before; a release or a press in [error] changes nothing. *)
Example scenario_network_error :
  state (run (onPressOut dev_offline) (pressed dev_offline)) = error
  /\ errorMsg (run (onPressOut dev_offline) (pressed dev_offline))
     = Some (js "Network request failed")
  /\ history (run (onPressOut dev_offline) (pressed dev_offline)) = []
  /\ reducer (state (run (onPressOut dev_offline) (pressed dev_offline)))
             CANCEL = idle
  /\ state (run (onPressIn dev_offline)
              (run (onPressOut dev_offline) (pressed dev_offline))) = error.
Proof. repeat split; reflexivity. Qed.

(** A status 500 and a body without audio. *)
Example scenario_backend_failures :
  errorMsg (run (onPressOut dev_500) (pressed dev_500))
  = Some (js "Backend 500: " ++ jsq "{'error':'Connection error.'}")
  /\ state (run (onPressOut dev_500) (pressed dev_500)) = error
  /\ errorMsg (run (onPressOut dev_no_audio) (pressed dev_no_audio))
     = Some (js "No audioBase64 in response")
  /\ state (run (onPressOut dev_no_audio) (pressed dev_no_audio)) = error
  /\ history (run (onPressOut dev_no_audio) (pressed dev_no_audio)) = [].
Proof. repeat split; reflexivity. Qed.

(** The answer is a success but the player cannot load the audio: the
    two entries are in the history already when the machine goes to
    [error]. *)
Example scenario_player_failure :
  state (run (onPressOut dev_no_player) (pressed dev_no_player)) = error
  /\ errorMsg (run (onPressOut dev_no_player) (pressed dev_no_player))
     = Some (js "Player error")
  /\ history (run (onPressOut dev_no_player) (pressed dev_no_player))
     = [ {| role := user; content := js "Hola" |};
         {| role := assistant; content := reply_hola |} ].
Proof. repeat split; reflexivity. Qed.

(** What [JSON.stringify] writes and [JSON.parse] reads, on an entry with
    a quotation mark, a line feed and a lone surrogate. *)
Example scenario_escapes :
  JSON_stringify [ {| role := user;
                      content := js "a" ++ [34%N; 10%N; 55357%N] |} ]
  = jsq "[{'role':'user','content':'a" ++ [92%N; 34%N; 92%N; 110%N]
    ++ js "\ud83d" ++ jsq "'}]"
  /\ Backend.parse_history
       (Some (JSON_stringify
                [ {| role := user;
                     content := js "a" ++ [34%N; 10%N; 55357%N] |} ]))
     = [ {| role := user; content := js "a" ++ [34%N; 10%N; 55357%N] |} ].
Proof. split; vm_compute; reflexivity. Qed.

(* ===================================================================== *)
(** * Further properties of the code *)
(* ===================================================================== *)

(** ** The backend: uploads, failures, bounds *)

Lemma parseForm_inr (o : Outcome Backend.Form) (p : Backend.Parsed) :
  Backend.parseForm o = inr p ->
  exists form n,
    o = inr form
    /\ Backend.pick_file (Backend.files form)
       = Some {| Backend.filepath := Some (Backend.file_path p);
                 Backend.originalFilename := n |}
    /\ Backend.file_path p <> []
    /\ Backend.file_name p = n
    /\ Backend.history p
       = Backend.parse_history
           (Backend.fieldToString
              (Backend.assoc (js "history") (Backend.fields form))).
Proof.
  unfold Backend.parseForm. destruct o as [e|form]; [discriminate|].
  destruct (Backend.pick_file (Backend.files form)) as [[[[|x path]|] n]|]
    eqn:E; try discriminate.
  intros [= <-]. exists form, n. cbn.
  split; [reflexivity|]. split; [exact E|].
  split; [discriminate|]. split; reflexivity.
Qed.

Lemma parseForm_history_cap (o : Outcome Backend.Form) (p : Backend.Parsed) :
  Backend.parseForm o = inr p -> length (Backend.history p) <= 12.
Proof.
  intros H. destruct (parseForm_inr _ H) as [form [n [_ [_ [_ [_ ->]]]]]].
  exact (last12_length _).
Qed.

Lemma method_post (req : Backend.Request) :
  Backend.method req = Some (js "POST") ->
  Backend.method_is req (js "GET") = false
  /\ Backend.method_is req (js "POST") = true.
Proof.
  intros H. split.
  - apply method_is_false. rewrite H. discriminate.
  - now apply method_is_true.
Qed.

(** X1. A POST whose form has no usable audio file (no file at all, or a
    picked file without a non-empty [filepath]) is answered with status
    500 and [{error: "No audio file uploaded"}], with no header set; no
    OpenAI call is made. *)
Theorem post_without_audio_file :
  forall (client : Backend.OpenAI) (req : Backend.Request)
         (form : Backend.Form),
    Backend.method req = Some (js "POST") ->
    Backend.body req = inr form ->
    (forall f, Backend.pick_file (Backend.files form) = Some f ->
               truthy (Backend.filepath f) = false) ->
    snd (Backend.handler client req Backend.fresh)
    = {| Backend.status := Some 500;
         Backend.headers := [];
         Backend.sent := Some (Backend.ErrorBody (js "No audio file uploaded"));
         Backend.calls := [Backend.CallParseForm] |}.
Proof.
  intros client req form Hm Hb Hf.
  destruct (method_post req Hm) as [Hg Hp].
  unfold Backend.handler. rewrite Hg, Hp. cbn [negb].
  run_backend. rewrite Hb. unfold Backend.parseForm.
  destruct (Backend.pick_file (Backend.files form)) as [[[[|x path]|] n]|] eqn:E;
    try reflexivity.
  specialize (Hf _ eq_refl). discriminate Hf.
Qed.

Lemma post_without_audio_file_witness :
  snd (Backend.handler (openai None) post_without_file Backend.fresh)
  = {| Backend.status := Some 500;
       Backend.headers := [];
       Backend.sent := Some (Backend.ErrorBody (js "No audio file uploaded"));
       Backend.calls := [Backend.CallParseForm] |}.
Proof.
  apply (@post_without_audio_file (openai None) post_without_file
           form_without_file eq_refl eq_refl).
  intros f H. discriminate H.
Defined.

(** X2. The part named [audio] is the upload, wherever it stands among
    the files; without such a part the first file is.  When the [audio]
    part has no usable path the form is rejected, even if another part
    would do. *)
Theorem audio_part_wins :
  forall (fs : list (jsstring * Backend.File)),
    (forall f, Backend.assoc (js "audio") fs = Some f ->
               Backend.pick_file fs = Some f
               /\ (truthy (Backend.filepath f) = false ->
                   forall fields,
                     Backend.parseForm
                       (inr {| Backend.fields := fields;
                               Backend.files := fs |})
                     = inl (Error (js "No audio file uploaded"))))
    /\ (Backend.assoc (js "audio") fs = None ->
        Backend.pick_file fs = option_map snd (hd_error fs)).
Proof.
  intros fs. split.
  - intros f H. unfold Backend.pick_file. rewrite H. split; [reflexivity|].
    intros Hf fields. unfold Backend.parseForm. cbn [Backend.files].
    unfold Backend.pick_file. rewrite H.
    destruct f as [[[|x path]|] n]; try reflexivity. discriminate Hf.
  - intros H. unfold Backend.pick_file. rewrite H.
    destruct fs as [|[k f] fs]; reflexivity.
Qed.

Lemma audio_part_wins_witness :
  Backend.parseForm
    (inr {| Backend.fields := []; Backend.files := files_with_bad_audio |})
  = inl (Error (js "No audio file uploaded")).
Proof.
  exact (proj2 (proj1 (audio_part_wins files_with_bad_audio)
                  {| Backend.filepath := Some [];
                     Backend.originalFilename := None |} eq_refl)
           eq_refl []).
Defined.

(** X3. A POST with a usable audio file always reaches the transcriber,
    whatever the form fields hold: [parseForm] resolves with a history of
    at most 12 entries, and the second call of the handler is the
    transcription of the uploaded path, under the original file name or,
    when that is missing or empty, under [audio.m4a]. *)
Theorem valid_upload_reaches_transcriber :
  forall (client : Backend.OpenAI) (req : Backend.Request)
         (form : Backend.Form) (path : jsstring) (n : option jsstring),
    Backend.method req = Some (js "POST") ->
    Backend.body req = inr form ->
    Backend.pick_file (Backend.files form)
    = Some {| Backend.filepath := Some path;
              Backend.originalFilename := n |} ->
    path <> [] ->
    (exists h,
        Backend.parseForm (Backend.body req)
        = inr {| Backend.file_path := path;
                 Backend.file_name := n;
                 Backend.history := h |}
        /\ length h <= 12)
    /\ nth_error
         (Backend.calls (snd (Backend.handler client req Backend.fresh))) 1
       = Some (Backend.CallTranscribe path
                 (if truthy n then nullish n [] else js "audio.m4a")).
Proof.
  intros client req form path n Hm Hb Hf Hne.
  assert (Hp : Backend.parseForm (Backend.body req)
               = inr {| Backend.file_path := path;
                        Backend.file_name := n;
                        Backend.history :=
                          Backend.parse_history
                            (Backend.fieldToString
                               (Backend.assoc (js "history")
                                  (Backend.fields form))) |}).
  { rewrite Hb. unfold Backend.parseForm. rewrite Hf.
    destruct path as [|x path]; [contradiction Hne; reflexivity|].
    reflexivity. }
  split.
  - eexists. split; [exact Hp|]. exact (last12_length _).
  - destruct (method_post req Hm) as [Hg Hpost].
    unfold Backend.handler. rewrite Hg, Hpost. cbn [negb].
    run_backend. rewrite Hp. cbn.
    destruct (Backend.transcriptions_create client path _) as [e|stt]; cbn;
      [reflexivity|].
    destruct (Backend.chat_completions_create client _) as [e|chat]; cbn;
      [reflexivity|].
    destruct (Backend.speech_create client _) as [e|audio]; reflexivity.
Qed.

Lemma valid_upload_reaches_transcriber_witness :
  nth_error
    (Backend.calls
       (snd (Backend.handler (openai None) (request "POST" (js "{oops"))
               Backend.fresh))) 1
  = Some (Backend.CallTranscribe (js "/tmp/upload_1")
            (js "recording-1.m4a")).
Proof.
  refine (proj2 (@valid_upload_reaches_transcriber (openai None)
                   (request "POST" (js "{oops")) (upload_form (js "{oops"))
                   (js "/tmp/upload_1") (Some (js "recording-1.m4a"))
                   eq_refl eq_refl eq_refl _)).
  discriminate.
Defined.

(** X4. The handler answers every request, once, and the method decides
    how.  A GET is answered with 200 and the route body, without header or
    call.  A method other than GET and POST, a missing method included, is
    answered with 405, the header [Allow: POST] and [Method Not Allowed],
    without call.  A POST is answered with 200, a turn body and the two
    headers after exactly the four calls (form, transcription, chat,
    speech), or with 500, an error body and no header after one to four
    calls, the first of them the parsing of the form. *)
Theorem handler_always_answers :
  forall (client : Backend.OpenAI) (req : Backend.Request),
    (Backend.method req = Some (js "GET") ->
     snd (Backend.handler client req Backend.fresh)
     = {| Backend.status := Some 200;
          Backend.headers := [];
          Backend.sent := Some (Backend.RouteBody true (js "turn"));
          Backend.calls := [] |})
    /\ (Backend.method req <> Some (js "GET") ->
        Backend.method req <> Some (js "POST") ->
        snd (Backend.handler client req Backend.fresh)
        = {| Backend.status := Some 405;
             Backend.headers := [(js "Allow", js "POST")];
             Backend.sent :=
               Some (Backend.ErrorBody (js "Method Not Allowed"));
             Backend.calls := [] |})
    /\ (Backend.method req = Some (js "POST") ->
        (Backend.status (snd (Backend.handler client req Backend.fresh))
         = Some 200
         /\ (exists p,
                Backend.sent (snd (Backend.handler client req Backend.fresh))
                = Some (Backend.TurnBody p))
         /\ Backend.headers (snd (Backend.handler client req Backend.fresh))
            = [(js "Content-Type", js "application/json");
               (js "Cache-Control", js "no-store")]
         /\ (exists path name msgs input,
                Backend.calls (snd (Backend.handler client req Backend.fresh))
                = [ Backend.CallParseForm;
                    Backend.CallTranscribe path name;
                    Backend.CallChat msgs;
                    Backend.CallSpeech input ]))
        \/ (Backend.status (snd (Backend.handler client req Backend.fresh))
            = Some 500
            /\ (exists m,
                   Backend.sent
                     (snd (Backend.handler client req Backend.fresh))
                   = Some (Backend.ErrorBody m))
            /\ Backend.headers
                 (snd (Backend.handler client req Backend.fresh)) = []
            /\ hd_error
                 (Backend.calls
                    (snd (Backend.handler client req Backend.fresh)))
               = Some Backend.CallParseForm
            /\ 1 <= length (Backend.calls
                              (snd (Backend.handler client req Backend.fresh)))
               <= 4)).
Proof.
  intros client req. split; [|split].
  - intros Hm. unfold Backend.handler.
    rewrite (proj2 (method_is_true req (js "GET")) Hm). reflexivity.
  - intros Hg Hp. unfold Backend.handler.
    rewrite (method_is_false req Hg), (method_is_false req Hp). reflexivity.
  - intros Hm. destruct (method_post req Hm) as [Hg Hp].
    unfold Backend.handler. rewrite Hg, Hp. cbn [negb]. run_backend.
    destruct (Backend.parseForm (Backend.body req)) as [e|p]; cbn.
    { right. repeat split; try (eexists; reflexivity); cbn; lia. }
    destruct (Backend.transcriptions_create client _ _) as [e|stt]; cbn.
    { right. repeat split; try (eexists; reflexivity); cbn; lia. }
    destruct (Backend.chat_completions_create client _) as [e|chat]; cbn.
    { right. repeat split; try (eexists; reflexivity); cbn; lia. }
    destruct (Backend.speech_create client _) as [e|audio]; cbn.
    { right. repeat split; try (eexists; reflexivity); cbn; lia. }
    left. repeat split; try (eexists; reflexivity).
    do 4 eexists. reflexivity.
Qed.

Lemma handler_always_answers_witness :
  Backend.status
    (snd (Backend.handler openai_down (request "GET" mixed_payload)
            Backend.fresh)) = Some 200
  /\ Backend.status
       (snd (Backend.handler openai_down (request "PUT" mixed_payload)
               Backend.fresh)) = Some 405
  /\ Backend.status
       (snd (Backend.handler openai_down (request "POST" mixed_payload)
               Backend.fresh)) = Some 500
  /\ Backend.status
       (snd (Backend.handler (openai None) (request "POST" mixed_payload)
               Backend.fresh)) = Some 200.
Proof.
  split.
  { rewrite (proj1 (@handler_always_answers openai_down
                      (request "GET" mixed_payload)) eq_refl).
    reflexivity. }
  split.
  { rewrite (proj1 (proj2 (@handler_always_answers openai_down
                             (request "PUT" mixed_payload)))).
    - reflexivity.
    - discriminate.
    - discriminate. }
  split.
  { destruct (proj2 (proj2 (@handler_always_answers openai_down
                              (request "POST" mixed_payload))) eq_refl)
      as [[_ [_ [_ [path [name [msgs [input H]]]]]]]|[H _]].
    - discriminate H.
    - exact H. }
  destruct (proj2 (proj2 (@handler_always_answers (openai None)
                            (request "POST" mixed_payload))) eq_refl)
    as [[H _]|[_ [_ [H _]]]].
  - exact H.
  - discriminate H.
Defined.

(** X5. The four steps of a POST run in order and the first failure ends
    the turn: the answer is 500 with the message of that failure, no header
    is set, and the later collaborators are not called. *)
Theorem first_failure_ends_the_turn :
  forall (client : Backend.OpenAI) (req : Backend.Request),
    Backend.method req = Some (js "POST") ->
    (forall e,
        Backend.parseForm (Backend.body req) = inl e ->
        snd (Backend.handler client req Backend.fresh)
        = {| Backend.status := Some 500;
             Backend.headers := [];
             Backend.sent := Some (Backend.ErrorBody (Backend.exn_text e));
             Backend.calls := [Backend.CallParseForm] |})
    /\ (forall p e,
           Backend.parseForm (Backend.body req) = inr p ->
           Backend.transcriptions_create client
             (Backend.file_path p) (Backend.upload_name p) = inl e ->
           snd (Backend.handler client req Backend.fresh)
           = {| Backend.status := Some 500;
                Backend.headers := [];
                Backend.sent := Some (Backend.ErrorBody (Backend.exn_text e));
                Backend.calls :=
                  [ Backend.CallParseForm;
                    Backend.CallTranscribe (Backend.file_path p)
                                           (Backend.upload_name p) ] |})
    /\ (forall p stt e,
           Backend.parseForm (Backend.body req) = inr p ->
           Backend.transcriptions_create client
             (Backend.file_path p) (Backend.upload_name p) = inr stt ->
           Backend.chat_completions_create client
             (Backend.build_messages (Backend.history p)
                (nullish (Backend.text stt) [])) = inl e ->
           snd (Backend.handler client req Backend.fresh)
           = {| Backend.status := Some 500;
                Backend.headers := [];
                Backend.sent := Some (Backend.ErrorBody (Backend.exn_text e));
                Backend.calls :=
                  [ Backend.CallParseForm;
                    Backend.CallTranscribe (Backend.file_path p)
                                           (Backend.upload_name p);
                    Backend.CallChat
                      (Backend.build_messages (Backend.history p)
                         (nullish (Backend.text stt) [])) ] |})
    /\ (forall p stt chat e,
           Backend.parseForm (Backend.body req) = inr p ->
           Backend.transcriptions_create client
             (Backend.file_path p) (Backend.upload_name p) = inr stt ->
           Backend.chat_completions_create client
             (Backend.build_messages (Backend.history p)
                (nullish (Backend.text stt) [])) = inr chat ->
           Backend.speech_create client
             (nullish (Backend.first_content chat) Backend.FALLBACK_REPLY)
           = inl e ->
           snd (Backend.handler client req Backend.fresh)
           = {| Backend.status := Some 500;
                Backend.headers := [];
                Backend.sent := Some (Backend.ErrorBody (Backend.exn_text e));
                Backend.calls :=
                  [ Backend.CallParseForm;
                    Backend.CallTranscribe (Backend.file_path p)
                                           (Backend.upload_name p);
                    Backend.CallChat
                      (Backend.build_messages (Backend.history p)
                         (nullish (Backend.text stt) []));
                    Backend.CallSpeech
                      (nullish (Backend.first_content chat)
                               Backend.FALLBACK_REPLY) ] |}).
Proof.
  intros client req Hm.
  destruct (method_post req Hm) as [Hg Hpost].
  unfold Backend.handler. rewrite Hg, Hpost. cbn [negb].
  split; [|split; [|split]].
  - intros e Hp. run_backend. now rewrite Hp.
  - intros p e Hp Hs. run_backend. rewrite Hp. cbn. now rewrite Hs.
  - intros p stt e Hp Hs Hc. run_backend. rewrite Hp. cbn. rewrite Hs. cbn.
    now rewrite Hc.
  - intros p stt chat e Hp Hs Hc Ha. run_backend. rewrite Hp. cbn.
    rewrite Hs. cbn. rewrite Hc. cbn. cbn in Ha. now rewrite Ha.
Qed.

Lemma first_failure_ends_the_turn_witness :
  snd (Backend.handler openai_down (request "POST" mixed_payload)
         Backend.fresh)
  = {| Backend.status := Some 500;
       Backend.headers := [];
       Backend.sent := Some (Backend.ErrorBody (js "Connection error."));
       Backend.calls :=
         [ Backend.CallParseForm;
           Backend.CallTranscribe (js "/tmp/upload_1")
                                  (js "recording-1.m4a") ] |}.
Proof.
  exact (proj1 (proj2 (@first_failure_ends_the_turn openai_down
                         (request "POST" mixed_payload) eq_refl))
           parsed_mixed (Error (js "Connection error.")) eq_refl eq_refl).
Defined.

(** X6. Whatever the request holds, a chat request of the handler has at
    most 14 messages: the system prompt, at most 12 entries of history,
    none of them a system message, and the user message. *)
Theorem chat_request_is_bounded :
  forall (client : Backend.OpenAI) (req : Backend.Request)
         (msgs : list Backend.ChatCompletionMessageParam),
    In (Backend.CallChat msgs)
       (Backend.calls (snd (Backend.handler client req Backend.fresh))) ->
    length msgs <= 14
    /\ exists (h : list Msg) (t : jsstring),
         length h <= 12
         /\ msgs
            = {| Backend.p_role := Backend.role_system;
                 Backend.p_content := Backend.SYSTEM_PROMPT |}
              :: map (fun m => {| Backend.p_role := Backend.chat_role (role m);
                                  Backend.p_content := content m |}) h
              ++ [ {| Backend.p_role := Backend.role_user;
                      Backend.p_content := t |} ]
         /\ Forall (fun m => Backend.p_role m <> Backend.role_system)
                   (tl msgs).
Proof.
  intros client req msgs. unfold Backend.handler.
  destruct (Backend.method_is req (js "GET")); [intros []|].
  destruct (Backend.method_is req (js "POST")); cbn [negb]; [|intros []].
  run_backend.
  destruct (Backend.parseForm (Backend.body req)) as [e|p] eqn:Hp; cbn.
  { intros [H|[]]; discriminate H. }
  assert (Hmsgs :
            forall t, Backend.CallChat (Backend.build_messages
                                          (Backend.history p) t)
                      = Backend.CallChat msgs ->
                      length msgs <= 14
                      /\ exists (h : list Msg) (t : jsstring),
                           length h <= 12
                           /\ msgs
                              = {| Backend.p_role := Backend.role_system;
                                   Backend.p_content := Backend.SYSTEM_PROMPT |}
                                :: map (fun m =>
                                          {| Backend.p_role :=
                                               Backend.chat_role (role m);
                                             Backend.p_content := content m |}) h
                                ++ [ {| Backend.p_role := Backend.role_user;
                                        Backend.p_content := t |} ]
                           /\ Forall (fun m => Backend.p_role m
                                               <> Backend.role_system)
                                     (tl msgs)).
  { intros t [= <-]. pose proof (parseForm_history_cap _ Hp) as Hcap.
    unfold Backend.build_messages. split.
    - cbn [length]. rewrite length_app, length_map. cbn [length]. lia.
    - exists (Backend.history p), t. split; [exact Hcap|].
      split; [reflexivity|]. cbn [tl].
      apply Forall_app. split.
      + apply Forall_forall. intros m Hin.
        apply in_map_iff in Hin as [x [<- _]].
        destruct (role x); discriminate.
      + constructor; [discriminate|constructor]. }
  destruct (Backend.transcriptions_create client _ _) as [e|stt]; cbn.
  { intros [H|[H|[]]]; discriminate H. }
  destruct (Backend.chat_completions_create client _) as [e|chat]; cbn.
  { intros [H|[H|[H|[]]]]; try discriminate H. exact (Hmsgs _ H). }
  destruct (Backend.speech_create client _) as [e|audio]; cbn;
    intros [H|[H|[H|[H|[]]]]]; try discriminate H; exact (Hmsgs _ H).
Qed.

Lemma chat_request_is_bounded_witness :
  length (Backend.build_messages (Backend.history parsed_mixed) (js "Hola"))
  <= 14.
Proof.
  refine (proj1 (@chat_request_is_bounded (openai None)
                   (request "POST" mixed_payload)
                   (Backend.build_messages (Backend.history parsed_mixed)
                      (js "Hola")) _)).
  right. right. left. reflexivity.
Defined.

(** ** The earlier backend *)

Ltac run_backend0 :=
  cbv [Backend0.handler Backend0.call Backend0.send Backend0.setHeader
       try_catch bind ret throw get modify await]; cbn [fst snd].

(** X7. The earlier handler has no route probe: every request whose
    method is not POST, a GET included, is answered with 405, the header
    [Allow: POST] and [{error: "Method Not Allowed"}], without any call. *)
Theorem earlier_handler_rejects_other_methods :
  forall (client : Backend.OpenAI) (req : Backend.Request),
    Backend.method req <> Some (js "POST") ->
    snd (Backend0.handler client req Backend0.fresh)
    = {| Backend0.status := Some 405;
         Backend0.headers := [(js "Allow", js "POST")];
         Backend0.sent := Some (Backend0.ErrorBody (js "Method Not Allowed"));
         Backend0.calls := [] |}.
Proof.
  intros client req H. unfold Backend0.handler.
  rewrite (@method_is_false req _ H). reflexivity.
Qed.

Lemma earlier_handler_rejects_other_methods_witness :
  Backend0.status
    (snd (Backend0.handler (openai None) (request "GET" mixed_payload)
            Backend0.fresh))
  = Some 405.
Proof.
  rewrite (@earlier_handler_rejects_other_methods (openai None)
             (request "GET" mixed_payload)).
  - reflexivity.
  - discriminate.
Defined.

(** X8. A turn of the earlier handler: the upload is transcribed under
    the name [audio.m4a]; the chat request has two messages, the system
    prompt and the transcription, whatever fields the form has; the reply
    is the content of the message of the first choice of the completion
    when that content is a non-empty string, and the fallback reply when
    there is no choice, no message, no content or an empty content; the
    speech is made from the reply; the answer is 200 with the audio alone,
    sent as [audio/mpeg]. *)
Theorem earlier_handler_turn :
  forall (client : Backend.OpenAI) (req : Backend.Request)
         (path : jsstring) (stt : Backend.TranscriptionJSON)
         (chat : Backend.ChatCompletion) (reply audio : jsstring),
    Backend.method req = Some (js "POST") ->
    Backend0.parseForm (Backend.body req) = inr path ->
    Backend.transcriptions_create client path (js "audio.m4a") = inr stt ->
    Backend.chat_completions_create client
      [ {| Backend.p_role := Backend.role_system;
           Backend.p_content := Backend0.SYSTEM_PROMPT |};
        {| Backend.p_role := Backend.role_user;
           Backend.p_content := nullish (Backend.text stt) [] |} ]
    = inr chat ->
    reply
    = match Backend.choices chat with
      | {| Backend.message :=
             Some {| Backend.m_content := Some (x :: c) |} |} :: _ => x :: c
      | _ => [191%N] ++ js "Puedes repetir, por favor?"
      end ->
    Backend.speech_create client reply = inr audio ->
    snd (Backend0.handler client req Backend0.fresh)
    = {| Backend0.status := Some 200;
         Backend0.headers :=
           [(js "Content-Type", js "audio/mpeg");
            (js "Cache-Control", js "no-store")];
         Backend0.sent := Some (Backend0.AudioBody audio);
         Backend0.calls :=
           [ Backend.CallParseForm;
             Backend.CallTranscribe path (js "audio.m4a");
             Backend.CallChat
               [ {| Backend.p_role := Backend.role_system;
                    Backend.p_content := Backend0.SYSTEM_PROMPT |};
                 {| Backend.p_role := Backend.role_user;
                    Backend.p_content := nullish (Backend.text stt) [] |} ];
             Backend.CallSpeech reply ] |}.
Proof.
  intros client req path stt chat reply audio Hm Hp Hs Hc Hr Ha.
  assert (E : Backend0.reply_of chat = reply).
  { rewrite Hr. unfold Backend0.reply_of, Backend.first_content.
    destruct (Backend.choices chat) as [|[[[[[|x c]|]]|]] rest];
      reflexivity. }
  unfold Backend0.handler.
  rewrite (proj2 (method_is_true req (js "POST")) Hm). cbn [negb].
  run_backend0. rewrite Hp. cbn. cbn in Hs. rewrite Hs. cbn.
  cbn in Hc. rewrite Hc. cbn. rewrite E. now rewrite Ha.
Qed.

Lemma earlier_handler_turn_witness :
  Backend0.calls
    (snd (Backend0.handler (openai (Some [])) (request "POST" mixed_payload)
            Backend0.fresh))
  = [ Backend.CallParseForm;
      Backend.CallTranscribe (js "/tmp/upload_1") (js "audio.m4a");
      Backend.CallChat
        [ {| Backend.p_role := Backend.role_system;
             Backend.p_content := Backend0.SYSTEM_PROMPT |};
          {| Backend.p_role := Backend.role_user;
             Backend.p_content := js "Hola" |} ];
      Backend.CallSpeech ([191%N] ++ js "Puedes repetir, por favor?") ]
  /\ Backend0.calls
       (snd (Backend0.handler (openai (Some reply_hola))
               (request "POST" mixed_payload) Backend0.fresh))
     = [ Backend.CallParseForm;
         Backend.CallTranscribe (js "/tmp/upload_1") (js "audio.m4a");
         Backend.CallChat
           [ {| Backend.p_role := Backend.role_system;
                Backend.p_content := Backend0.SYSTEM_PROMPT |};
             {| Backend.p_role := Backend.role_user;
                Backend.p_content := js "Hola" |} ];
         Backend.CallSpeech reply_hola ]
  /\ Backend0.sent
       (snd (Backend0.handler (openai (Some reply_hola))
               (request "POST" mixed_payload) Backend0.fresh))
     = Some (Backend0.AudioBody (js "SUQzBAAAAAAA")).
Proof.
  pose proof (fun content reply H =>
                @earlier_handler_turn (openai content)
                  (request "POST" mixed_payload) (js "/tmp/upload_1")
                  {| Backend.text := Some (js "Hola") |}
                  {| Backend.choices :=
                       [{| Backend.message :=
                             Some {| Backend.m_content := content |} |}] |}
                  reply (js "SUQzBAAAAAAA")
                  eq_refl eq_refl eq_refl eq_refl H eq_refl) as T.
  split; [|split].
  - rewrite (T (Some []) _ eq_refl). reflexivity.
  - rewrite (T (Some reply_hola) reply_hola eq_refl). reflexivity.
  - rewrite (T (Some reply_hola) reply_hola eq_refl). reflexivity.
Defined.

(** X9. A POST to the earlier handler is answered with 200 or with 500;
    a 500 sets no header and carries the message of the exception that ended
    the turn, or [Internal error] when what was thrown is not an [Error]. *)
Theorem earlier_handler_failure :
  forall (client : Backend.OpenAI) (req : Backend.Request),
    Backend.method req = Some (js "POST") ->
    (Backend0.status (snd (Backend0.handler client req Backend0.fresh))
     = Some 200
     /\ exists audio,
          Backend0.sent (snd (Backend0.handler client req Backend0.fresh))
          = Some (Backend0.AudioBody audio))
    \/ (Backend0.status (snd (Backend0.handler client req Backend0.fresh))
        = Some 500
        /\ Backend0.headers (snd (Backend0.handler client req Backend0.fresh))
           = []
        /\ exists e,
             Backend0.sent (snd (Backend0.handler client req Backend0.fresh))
             = Some (Backend0.ErrorBody
                       match e with
                       | Error m => m
                       | Thrown _ => js "Internal error"
                       end)
             /\ (Backend0.parseForm (Backend.body req) = inl e
                 \/ (exists path name,
                        Backend.transcriptions_create client path name = inl e)
                 \/ (exists msgs,
                        Backend.chat_completions_create client msgs = inl e)
                 \/ (exists input,
                        Backend.speech_create client input = inl e))).
Proof.
  intros client req Hm. unfold Backend0.handler.
  rewrite (proj2 (method_is_true req (js "POST")) Hm). cbn [negb].
  run_backend0.
  destruct (Backend0.parseForm (Backend.body req)) as [e|path] eqn:Hp; cbn.
  { right. repeat split. exists e. split; [reflexivity|]. left. reflexivity. }
  destruct (Backend.transcriptions_create client path _) as [e|stt] eqn:Hs;
    cbn.
  { right. repeat split. exists e. split; [reflexivity|].
    right. left. eexists. eexists. exact Hs. }
  destruct (Backend.chat_completions_create client _) as [e|chat] eqn:Hc;
    cbn.
  { right. repeat split. exists e. split; [reflexivity|].
    right. right. left. eexists. exact Hc. }
  destruct (Backend.speech_create client _) as [e|audio] eqn:Ha; cbn.
  { right. repeat split. exists e. split; [reflexivity|].
    right. right. right. eexists. exact Ha. }
  left. split; [reflexivity|]. eexists. reflexivity.
Qed.

Lemma earlier_handler_failure_witness :
  Backend0.sent
    (snd (Backend0.handler openai_throwing (request "POST" mixed_payload)
            Backend0.fresh))
  = Some (Backend0.ErrorBody (js "Internal error"))
  /\ Backend.sent
       (snd (Backend.handler openai_throwing (request "POST" mixed_payload)
               Backend.fresh))
     = Some (Backend.ErrorBody (js "timeout")).
Proof.
  destruct (@earlier_handler_failure openai_throwing
              (request "POST" mixed_payload) eq_refl)
    as [[H _]|[_ [_ [e [H _]]]]].
  - discriminate H.
  - split; reflexivity.
Defined.

(** ** The component under sequences of events *)

Lemma onPressIn_elsewhere (d : Device) (c : Ctl) :
  state c <> idle -> run (onPressIn d) c = c.
Proof.
  intros H. unfold onPressIn. cbv [run bind get ret]. cbn [fst snd].
  destruct (state c); try reflexivity. contradiction H. reflexivity.
Qed.

Lemma onPressOut_elsewhere (d : Device) (c : Ctl) :
  state c <> listening -> run (onPressOut d) c = c.
Proof.
  intros H. unfold onPressOut. cbv [run bind get ret]. cbn [fst snd].
  destruct (state c); try reflexivity. contradiction H. reflexivity.
Qed.

(** A replay touches the error message and the watcher, nothing else. *)
Lemma onReplayPress_frame (c : Ctl) :
  state (run onReplayPress c) = state c
  /\ history (run onReplayPress c) = history c
  /\ recordingRef (run onReplayPress c) = recordingRef c
  /\ soundRef (run onReplayPress c) = soundRef c
  /\ isReplayDisabled (run onReplayPress c) = isReplayDisabled c
  /\ log (run onReplayPress c) = log c
  /\ (watcher c = false -> watcher (run onReplayPress c) = false).
Proof.
  run_handler. destruct (isReplayDisabled c) eqn:Hd; cbn;
    [repeat split; auto|].
  destruct (soundRef c) as [sound|] eqn:Hs; cbn; [|repeat split; auto].
  destruct (stopAsync sound) as [e|[]]; cbn; [repeat split; auto|].
  destruct (playAsync sound) as [e|[]]; cbn; repeat split; auto.
Qed.

(** One event in [error]. *)
Lemma handle_in_error (e : UIEvent) (c : Ctl) :
  state c = error ->
  state (run (handle e) c) = error
  /\ history (run (handle e) c) = history c
  /\ recordingRef (run (handle e) c) = recordingRef c.
Proof.
  intros H. destruct e as [d|d|b|]; cbn [handle].
  - rewrite onPressIn_elsewhere by (rewrite H; discriminate). auto.
  - rewrite onPressOut_elsewhere by (rewrite H; discriminate). auto.
  - run_handler. destruct (watcher c && b); cbn; rewrite ?H; auto.
  - destruct (onReplayPress_frame c) as [Hs [Hh [Hr _]]].
    rewrite Hs, Hh, Hr. auto.
Qed.

(** X12. Once the machine is in [error] no event of the component
    takes it out: presses and releases are ignored there, the playback
    watcher dispatches PLAY_END and a replay dispatches nothing, and CANCEL,
    the one event the reducer accepts in [error], is dispatched by no
    handler that can run there.  The history stays as it is. *)
Theorem error_is_never_left :
  forall (evs : list UIEvent) (c : Ctl),
    state c = error ->
    state (play evs c) = error /\ history (play evs c) = history c.
Proof.
  induction evs as [|e evs IH]; intros c H; [split; [exact H|reflexivity]|].
  cbn [play]. destruct (handle_in_error e c H) as [Hs [Hh _]].
  destruct (IH _ Hs) as [Hs' Hh']. rewrite Hs', Hh', Hh. split; reflexivity.
Qed.

Lemma error_is_never_left_witness :
  state (play [PressIn dev_hola; PressOut dev_hola; ReplayPress;
               PlaybackStatus true; PressIn dev_hola]
              (run (onPressOut dev_offline) (pressed dev_offline)))
  = error.
Proof.
  exact (proj1 (error_is_never_left
                  [PressIn dev_hola; PressOut dev_hola; ReplayPress;
                   PlaybackStatus true; PressIn dev_hola]
                  (run (onPressOut dev_offline) (pressed dev_offline))
                  eq_refl)).
Defined.

(** One event in [speaking] without a watcher. *)
Lemma handle_speaking_unwatched (e : UIEvent) (c : Ctl) :
  state c = speaking -> watcher c = false ->
  state (run (handle e) c) = speaking
  /\ watcher (run (handle e) c) = false
  /\ history (run (handle e) c) = history c.
Proof.
  intros H Hw. destruct e as [d|d|b|]; cbn [handle].
  - rewrite onPressIn_elsewhere by (rewrite H; discriminate). auto.
  - rewrite onPressOut_elsewhere by (rewrite H; discriminate). auto.
  - run_handler. rewrite Hw. cbn. auto.
  - destruct (onReplayPress_frame c) as [Hs [Hh [_ [_ [_ [_ Hw']]]]]].
    rewrite Hs, Hh, (Hw' Hw). auto.
Qed.

Lemma speaking_unwatched_is_never_left (evs : list UIEvent) (c : Ctl) :
  state c = speaking -> watcher c = false ->
  state (play evs c) = speaking /\ history (play evs c) = history c.
Proof.
  revert c. induction evs as [|e evs IH]; intros c H Hw;
    [split; [exact H|reflexivity]|].
  cbn [play]. destruct (handle_speaking_unwatched e c H Hw) as [Hs [Hw' Hh]].
  destruct (IH _ Hs Hw') as [Hs' Hh']. rewrite Hs', Hh', Hh.
  split; reflexivity.
Qed.

(** X13. A replay that starts while the machine is in [speaking]
    replaces the playback watcher of [stopAndSend] by a callback that
    dispatches nothing: from then on no event takes the machine out of
    [speaking]. *)
Theorem replay_while_speaking_blocks :
  forall (c : Ctl) (sound : Sound) (evs : list UIEvent),
    state c = speaking ->
    isReplayDisabled c = false ->
    soundRef c = Some sound ->
    stopAsync sound = inr tt ->
    playAsync sound = inr tt ->
    watcher (run onReplayPress c) = false
    /\ state (play (ReplayPress :: evs) c) = speaking.
Proof.
  intros c sound evs Hs Hd Hsnd Hstop Hplay.
  assert (Hw : watcher (run onReplayPress c) = false).
  { run_handler. rewrite Hd. cbn. rewrite Hsnd. cbn. rewrite Hstop. cbn.
    rewrite Hplay. reflexivity. }
  split; [exact Hw|]. cbn [play handle].
  apply speaking_unwatched_is_never_left; [|exact Hw].
  now rewrite (proj1 (onReplayPress_frame c)).
Qed.

Lemma replay_while_speaking_blocks_witness :
  watcher (run (onPressOut dev_hola) (pressed dev_hola)) = true
  /\ state (play [PlaybackStatus true]
                 (run (onPressOut dev_hola) (pressed dev_hola))) = idle
  /\ state (play [ReplayPress; PlaybackStatus true; PressIn dev_hola]
                 (run (onPressOut dev_hola) (pressed dev_hola))) = speaking.
Proof.
  split; [reflexivity|]. split; [reflexivity|].
  exact (proj2 (@replay_while_speaking_blocks
                  (run (onPressOut dev_hola) (pressed dev_hola)) sound_ok
                  [PlaybackStatus true; PressIn dev_hola]
                  eq_refl eq_refl eq_refl eq_refl eq_refl)).
Defined.

(** X14. A press on the replay button dispatches no event and sends no
    request; it leaves the state of the machine, the history, the
    recording and the sound as they are.  With the button disabled, or
    without a sound, it changes nothing at all; when the sound cannot be
    stopped or played the message of the exception, or [Replay error], is
    shown. *)
Theorem replay_is_local :
  forall c : Ctl,
    state (run onReplayPress c) = state c
    /\ history (run onReplayPress c) = history c
    /\ recordingRef (run onReplayPress c) = recordingRef c
    /\ soundRef (run onReplayPress c) = soundRef c
    /\ log_by onReplayPress c = []
    /\ (isReplayDisabled c = true \/ soundRef c = None ->
        run onReplayPress c = c)
    /\ (forall sound e,
           isReplayDisabled c = false ->
           soundRef c = Some sound ->
           stopAsync sound = inl e
           \/ (stopAsync sound = inr tt /\ playAsync sound = inl e) ->
           errorMsg (run onReplayPress c)
           = Some (nullish (exn_message e) (js "Replay error"))).
Proof.
  intros c. destruct (onReplayPress_frame c) as [Hs [Hh [Hr [Hsn [_ [Hl _]]]]]].
  repeat apply conj; try assumption.
  - unfold log_by. rewrite Hl. apply skipn_all.
  - intros [H|H]; run_handler.
    + rewrite H. reflexivity.
    + destruct (isReplayDisabled c); cbn; [reflexivity|].
      rewrite H. reflexivity.
  - intros sound e Hd Hsnd H. run_handler. rewrite Hd. cbn. rewrite Hsnd. cbn.
    destruct H as [->|[-> ->]]; reflexivity.
Qed.

Lemma replay_is_local_witness :
  run onReplayPress initial = initial.
Proof.
  exact (proj1 (proj2 (proj2 (proj2 (proj2 (proj2 (replay_is_local initial))))))
           (or_introl eq_refl)).
Defined.

(** ** Requests, recordings and the player *)

Ltac close_log :=
  unfold sent_by, log_by; cbn [fst snd log];
  rewrite <- ?app_assoc; rewrite ?skipn_length_app, ?skipn_all;
  cbn [app flat_map].

(** X10. An event sends at most one request, and only a release does:
    the machine is in [listening], the recording is live, it stopped
    without error and has a location.  The request is then the POST of that
    recording and of the last 6 entries of the history to the turn
    endpoint. *)
Theorem at_most_one_request :
  forall (e : UIEvent) (c : Ctl),
    sent_by (handle e) c = []
    \/ exists d rec u,
         e = PressOut d
         /\ state c = listening
         /\ recordingRef c = Some rec
         /\ stopAndUnloadAsync rec = inr tt
         /\ getURI rec = Some u
         /\ u <> []
         /\ sent_by (handle e) c = [turn_request d c u]
         /\ url (turn_request d c u) = API_URL
         /\ http_method (turn_request d c u) = js "POST".
Proof.
  intros [d|d|b|] c; cbn [handle].
  - left. unfold sent_by, log_by. run_handler.
    destruct (state c); cbn; try (close_log; reflexivity).
    destruct (prepareToRecordAsync (new_Recording d)) as [e|[]]; cbn;
      [close_log; reflexivity|].
    destruct (startAsync (new_Recording d)) as [e|[]]; cbn;
      close_log; reflexivity.
  - destruct (state c) eqn:Hs;
      try (left; unfold sent_by, log_by;
           rewrite onPressOut_elsewhere by (rewrite Hs; discriminate);
           rewrite skipn_all; reflexivity).
    unfold sent_by, log_by. run_handler. rewrite Hs. cbn.
    destruct (recordingRef c) as [rec|] eqn:Hr; cbn;
      [|left; close_log; reflexivity].
    destruct (stopAndUnloadAsync rec) as [e|[]] eqn:Hstop; cbn;
      [left; close_log; reflexivity|].
    destruct (getURI rec) as [[|x u]|] eqn:Hu; cbn;
      try (left; close_log; reflexivity).
    right. exists d, rec, (x :: u).
    do 6 (split; [first [reflexivity | assumption | discriminate]|]).
    split; [|split; reflexivity].
    destruct (fetch d _) as [e|resp]; cbn; [close_log; reflexivity|].
    destruct (ok resp); cbn;
      [|destruct (resp_text resp); cbn; close_log; reflexivity].
    destruct (resp_json resp) as [e|r]; cbn; [close_log; reflexivity|].
    destruct (truthy (audioBase64 r)); cbn; [|close_log; reflexivity].
    destruct (transcript r) as [t|]; cbn;
      destruct (soundRef c) as [old|]; cbn;
      try (destruct (stopAsync old) as [?|[]]; cbn;
           destruct (unloadAsync old) as [?|[]]; cbn);
      destruct (Sound_createAsync d _) as [?|snd]; cbn;
      try (destruct (playAsync snd) as [?|[]]; cbn);
      close_log; reflexivity.
  - left. unfold sent_by, log_by. run_handler.
    destruct (watcher c && b); close_log; reflexivity.
  - left. unfold sent_by, log_by.
    destruct (onReplayPress_frame c) as [_ [_ [_ [_ [_ [Hl _]]]]]].
    rewrite Hl, skipn_all. reflexivity.
Qed.

(** X11. When the recorder cannot be stopped, the release is undone in
    nothing: PRESS_UP was not dispatched yet, so the UPLOAD_ERR of the
    catch block finds the machine in [listening] and leaves it there; the
    recording is still referenced, the message of the exception (or
    [Upload/play error]) is shown, no request is sent and the history is
    unchanged. *)
Theorem stop_failure_keeps_listening :
  forall (d : Device) (c : Ctl) (rec : Recording) (e : Exn),
    state c = listening ->
    recordingRef c = Some rec ->
    stopAndUnloadAsync rec = inl e ->
    run (onPressOut d) c
    = {| state := listening;
         errorMsg := Some (nullish (exn_message e) (js "Upload/play error"));
         history := history c;
         isReplayDisabled := isReplayDisabled c;
         recordingRef := Some rec;
         soundRef := soundRef c;
         watcher := watcher c;
         log := log c ++ [Entered listening] |}.
Proof.
  intros d c rec e Hs Hr He. run_handler. rewrite Hs. cbn.
  rewrite Hr, He. cbn. rewrite Hs, Hr. reflexivity.
Qed.

Lemma stop_failure_keeps_listening_witness :
  state (run (onPressOut dev_unstoppable) (pressed dev_unstoppable))
  = listening
  /\ recordingRef (run (onPressOut dev_unstoppable) (pressed dev_unstoppable))
     = Some rec_unstoppable
  /\ errorMsg (run (onPressOut dev_unstoppable) (pressed dev_unstoppable))
     = Some (js "Upload/play error").
Proof.
  rewrite (@stop_failure_keeps_listening dev_unstoppable
             (pressed dev_unstoppable) rec_unstoppable
             (Thrown (js "no valid audio data")) eq_refl eq_refl eq_refl).
  repeat split; reflexivity.
Defined.

Arguments turn_request : simpl never.

(** X15. A whole turn.  From [idle], with a recorder that starts, stops
    and has a location, a request that delivers a turn and a player that
    loads and plays: press and release bring the machine to [speaking] with
    the new sound, a watcher, no recording, no message and the replay
    button enabled, whatever became of the previous sound (errors of its
    stop and unload are swallowed); the end of the playback then brings the
    machine back to [idle]. *)
Theorem turn_cycle :
  forall (d : Device) (c : Ctl) (u : jsstring) (r : TurnResponse)
         (sound : Sound),
    state c = idle ->
    prepareToRecordAsync (new_Recording d) = inr tt ->
    startAsync (new_Recording d) = inr tt ->
    stopAndUnloadAsync (new_Recording d) = inr tt ->
    getURI (new_Recording d) = Some u ->
    u <> [] ->
    remote_result (fetch d (turn_request d c u)) = Some r ->
    Sound_createAsync d (js "data:audio/mpeg;base64,"
                         ++ nullish (audioBase64 r) []) = inr sound ->
    playAsync sound = inr tt ->
    play [PressIn d; PressOut d] c
    = {| state := speaking;
         errorMsg := None;
         history :=
           match transcript r with
           | Some t => appendTurn (Some t) (replyText r) (history c)
           | None => history c
           end;
         isReplayDisabled := false;
         recordingRef := None;
         soundRef := Some sound;
         watcher := true;
         log := log c ++ [ Entered listening; Entered uploading;
                           Entered uploading;
                           Fetched (turn_request d c u);
                           Entered speaking ] |}
    /\ state (play [PressIn d; PressOut d; PlaybackStatus true] c) = idle
    /\ history (play [PressIn d; PressOut d; PlaybackStatus true] c)
       = history (play [PressIn d; PressOut d] c).
Proof.
  intros d c u r sound Hs Hprep Hstart Hstop Hu Hne Hf Hc Hp.
  assert (E : play [PressIn d; PressOut d] c
              = {| state := speaking;
                   errorMsg := None;
                   history :=
                     match transcript r with
                     | Some t => appendTurn (Some t) (replyText r) (history c)
                     | None => history c
                     end;
                   isReplayDisabled := false;
                   recordingRef := None;
                   soundRef := Some sound;
                   watcher := true;
                   log := log c ++ [ Entered listening; Entered uploading;
                                     Entered uploading;
                                     Fetched (turn_request d c u);
                                     Entered speaking ] |}).
  { cbn [play handle]. unfold remote_result in Hf.
    assert (E1 : run (onPressIn d) c
                 = {| state := listening; errorMsg := errorMsg c;
                      history := history c;
                      isReplayDisabled := isReplayDisabled c;
                      recordingRef := Some (new_Recording d);
                      soundRef := soundRef c; watcher := watcher c;
                      log := log c ++ [Entered listening] |}).
    { run_handler. rewrite Hs. cbn. rewrite Hprep. cbn. rewrite Hstart. cbn.
      rewrite Hs. reflexivity. }
    rewrite E1. run_handler. cbn. rewrite Hstop. cbn. rewrite Hu.
    destruct u as [|x u']; [contradiction Hne; reflexivity|]. cbn.
    match goal with
    | |- context [fetch d (turn_request d ?c1 (x :: u'))] =>
        change (turn_request d c1 (x :: u'))
          with (turn_request d c (x :: u'))
    end.
    destruct (fetch d (turn_request d c (x :: u'))) as [e|resp];
      [discriminate Hf|].
    cbn. destruct (ok resp); [|discriminate Hf].
    destruct (resp_json resp) as [e|r']; [discriminate Hf|].
    destruct (truthy (audioBase64 r')) eqn:Ha; [|discriminate Hf].
    injection Hf as <-. cbn. cbn in Hc.
    destruct (transcript r') as [t|]; cbn;
      destruct (soundRef c) as [old|]; cbn;
      try (destruct (stopAsync old) as [?|[]]; cbn;
           destruct (unloadAsync old) as [?|[]]; cbn);
      rewrite Hc; cbn; rewrite Hp; cbn; rewrite <- !app_assoc; reflexivity. }
  split; [exact E|].
  change (play [PressIn d; PressOut d; PlaybackStatus true] c)
    with (run (onPlaybackStatus true) (play [PressIn d; PressOut d] c)).
  rewrite E. split; reflexivity.
Qed.

Lemma turn_cycle_witness :
  state (play [PressIn dev_hola; PressOut dev_hola] initial) = speaking
  /\ state (play [PressIn dev_hola; PressOut dev_hola; PlaybackStatus true]
                 initial) = idle.
Proof.
  assert (Hne : js "file:///cache/Audio/recording-1.m4a" <> [])
    by discriminate.
  destruct (@turn_cycle dev_hola initial
              (js "file:///cache/Audio/recording-1.m4a")
              {| audioBase64 := Some (js "SUQzBAAAAAAA");
                 transcript := Some (js "Hola");
                 replyText := Some reply_hola |}
              sound_ok eq_refl eq_refl eq_refl eq_refl eq_refl Hne
              eq_refl eq_refl eq_refl) as [E [H _]].
  split; [rewrite E; reflexivity|exact H].
Defined.

(** Without events in between, [startRecording_among] is
    [startRecording]. *)
Lemma startRecording_among_nil (d : Device) (c : Ctl) :
  run (startRecording_among d [] []) c = run (startRecording d) c.
Proof.
  unfold startRecording_among. run_handler. cbn [play].
  destruct (prepareToRecordAsync (new_Recording d)) as [e|[]];
    [reflexivity|].
  destruct (startAsync (new_Recording d)) as [e|[]]; reflexivity.
Qed.

(** X16. A release that comes while the recorder is still starting is
    lost.  [startRecording] dispatches PRESS_DOWN before its first [await]
    and assigns [recordingRef.current] after its second: in between the
    machine is in [listening] and no recording is referenced.  A release at
    that moment passes the guard of [onPressOut], and [stopAndSend] returns
    at once: nothing is dispatched, nothing is sent.  When the recorder has
    started, the component is as if the button were still held: in
    [listening], with the recording referenced. *)
Theorem release_while_starting_is_lost :
  forall (d d' : Device) (c : Ctl),
    state c = idle ->
    recordingRef c = None ->
    (state (run (dispatch PRESS_DOWN) c) = listening
     /\ recordingRef (run (dispatch PRESS_DOWN) c) = None
     /\ run (onPressOut d') (run (dispatch PRESS_DOWN) c)
        = run (dispatch PRESS_DOWN) c)
    /\ run (startRecording_among d [PressOut d'] []) c
       = run (startRecording d) c
    /\ run (startRecording_among d [] [PressOut d']) c
       = run (startRecording d) c
    /\ (prepareToRecordAsync (new_Recording d) = inr tt ->
        startAsync (new_Recording d) = inr tt ->
        state (run (startRecording_among d [PressOut d'] []) c) = listening
        /\ recordingRef (run (startRecording_among d [PressOut d'] []) c)
           = Some (new_Recording d)
        /\ log_by (startRecording_among d [PressOut d'] []) c
           = [Entered listening]).
Proof.
  intros d d' c Hs Hr.
  assert (Hl : state (run (dispatch PRESS_DOWN) c) = listening).
  { run_handler. now rewrite Hs. }
  assert (Hn : recordingRef (run (dispatch PRESS_DOWN) c) = None).
  { run_handler. exact Hr. }
  assert (Hout : run (onPressOut d') (run (dispatch PRESS_DOWN) c)
                 = run (dispatch PRESS_DOWN) c).
  { unfold onPressOut at 1. cbv [run bind get]. cbn [fst snd].
    change (snd (dispatch PRESS_DOWN c)) with (run (dispatch PRESS_DOWN) c).
    rewrite Hl.
    change (snd (stopAndSend d' (run (dispatch PRESS_DOWN) c)))
      with (run (stopAndSend d') (run (dispatch PRESS_DOWN) c)).
    now apply stopAndSend_without_recording. }
  assert (Hd : dispatch PRESS_DOWN c
               = (inr tt, run (dispatch PRESS_DOWN) c)) by reflexivity.
  assert (E1 : run (startRecording_among d [PressOut d'] []) c
               = run (startRecording d) c).
  { rewrite <- startRecording_among_nil.
    unfold startRecording_among.
    cbv [run try_catch bind modify]. cbn [fst snd play handle].
    rewrite Hd. cbv iota beta. now rewrite Hout. }
  assert (E2 : run (startRecording_among d [] [PressOut d']) c
               = run (startRecording d) c).
  { rewrite <- startRecording_among_nil.
    unfold startRecording_among.
    cbv [run try_catch bind modify await]. cbn [fst snd play handle].
    rewrite Hd. cbv iota beta.
    destruct (prepareToRecordAsync (new_Recording d)) as [e|[]];
      [reflexivity|].
    now rewrite Hout. }
  split; [split; [exact Hl|split; [exact Hn|exact Hout]]|].
  split; [exact E1|]. split; [exact E2|].
  intros Hp Ha. unfold log_by. rewrite E1.
  run_handler. rewrite Hp, Ha. cbn [fst snd]. rewrite Hs.
  split; [reflexivity|]. split; [reflexivity|].
  cbn [log]. now rewrite skipn_length_app.
Qed.

Lemma release_while_starting_is_lost_witness :
  state (run (startRecording_among dev_hola [PressOut dev_hola] []) initial)
  = listening
  /\ recordingRef
       (run (startRecording_among dev_hola [PressOut dev_hola] []) initial)
     = Some rec_ok
  /\ log_by (startRecording_among dev_hola [PressOut dev_hola] []) initial
     = [Entered listening].
Proof.
  exact (proj2 (proj2 (proj2
           (@release_while_starting_is_lost dev_hola dev_hola initial
              eq_refl eq_refl))) eq_refl eq_refl).
Defined.

(** X19. The player fails after a turn was delivered.  When the sound
    cannot be created the machine goes to [error] with the message of the
    exception, and the entries of the turn are in the history already.  When
    the sound is created and cannot be played, UPLOAD_OK was dispatched
    before: the UPLOAD_ERR of the catch block finds the machine in
    [speaking], where it changes nothing, no watcher is registered, and no
    later event takes the machine out of [speaking]. *)
Theorem player_failure_after_turn :
  forall (d : Device) (c : Ctl) (rec : Recording) (u : jsstring)
         (r : TurnResponse),
    state c = listening ->
    recordingRef c = Some rec ->
    stopAndUnloadAsync rec = inr tt ->
    getURI rec = Some u ->
    u <> [] ->
    remote_result (fetch d (turn_request d c u)) = Some r ->
    (forall e,
        Sound_createAsync d (js "data:audio/mpeg;base64,"
                             ++ nullish (audioBase64 r) []) = inl e ->
        state (run (onPressOut d) c) = error
        /\ errorMsg (run (onPressOut d) c)
           = Some (nullish (exn_message e) (js "Upload/play error"))
        /\ soundRef (run (onPressOut d) c) = None
        /\ history (run (onPressOut d) c)
           = match transcript r with
             | Some t => appendTurn (Some t) (replyText r) (history c)
             | None => history c
             end)
    /\ (forall sound e,
           Sound_createAsync d (js "data:audio/mpeg;base64,"
                                ++ nullish (audioBase64 r) []) = inr sound ->
           playAsync sound = inl e ->
           state (run (onPressOut d) c) = speaking
           /\ errorMsg (run (onPressOut d) c)
              = Some (nullish (exn_message e) (js "Upload/play error"))
           /\ soundRef (run (onPressOut d) c) = Some sound
           /\ watcher (run (onPressOut d) c) = false
           /\ forall evs,
                state (play evs (run (onPressOut d) c)) = speaking).
Proof.
  intros d c rec u r Hs Hr Hstop Hu Hne Hf. unfold remote_result in Hf.
  assert (Hrun : run (onPressOut d) c = run (stopAndSend d) c).
  { unfold onPressOut. cbv [run bind get]. cbn [fst snd]. now rewrite Hs. }
  rewrite Hrun. clear Hrun.
  destruct u as [|x u']; [contradiction Hne; reflexivity|].
  destruct (fetch d (turn_request d c (x :: u'))) as [e0|resp] eqn:Ef;
    [discriminate Hf|].
  destruct (ok resp) eqn:Hok; [|discriminate Hf].
  destruct (resp_json resp) as [e0|r'] eqn:Hj; [discriminate Hf|].
  destruct (truthy (audioBase64 r')) eqn:Ha; [|discriminate Hf].
  injection Hf as <-.
  split.
  - intros e Hc. cbn in Hc.
    run_handler. rewrite Hr, Hstop. cbn. rewrite Hs, Hu. cbn.
    rewrite Ef. cbn. rewrite Hok. cbn. rewrite Hj. cbn. rewrite Ha. cbn.
    destruct (transcript r') as [t|]; cbn;
      destruct (soundRef c) as [old|]; cbn;
      try (destruct (stopAsync old) as [?|[]]; cbn;
           destruct (unloadAsync old) as [?|[]]; cbn);
      rewrite Hc; cbn; repeat split; reflexivity.
  - intros sound e Hc Hp. cbn in Hc.
    assert (H : state (run (stopAndSend d) c) = speaking
                /\ errorMsg (run (stopAndSend d) c)
                   = Some (nullish (exn_message e) (js "Upload/play error"))
                /\ soundRef (run (stopAndSend d) c) = Some sound
                /\ watcher (run (stopAndSend d) c) = false).
    { run_handler. rewrite Hr, Hstop. cbn. rewrite Hs, Hu. cbn.
      rewrite Ef. cbn. rewrite Hok. cbn. rewrite Hj. cbn. rewrite Ha. cbn.
      destruct (transcript r') as [t|]; cbn;
        destruct (soundRef c) as [old|]; cbn;
        try (destruct (stopAsync old) as [?|[]]; cbn;
             destruct (unloadAsync old) as [?|[]]; cbn);
        rewrite Hc; cbn; rewrite Hp; cbn; repeat split; reflexivity. }
    destruct H as [H1 [H2 [H3 H4]]].
    repeat split; try assumption.
    intros evs. now apply speaking_unwatched_is_never_left.
Qed.

Lemma player_failure_after_turn_witness :
  state (run (onPressOut dev_no_player) (pressed dev_no_player)) = error
  /\ history (run (onPressOut dev_no_player) (pressed dev_no_player))
     = appendTurn (Some (js "Hola")) (Some reply_hola) [].
Proof.
  assert (Hne : js "file:///cache/Audio/recording-1.m4a" <> [])
    by discriminate.
  destruct (proj1 (@player_failure_after_turn dev_no_player
                     (pressed dev_no_player) rec_ok
                     (js "file:///cache/Audio/recording-1.m4a")
                     {| audioBase64 := Some (js "SUQzBAAAAAAA");
                        transcript := Some (js "Hola");
                        replyText := Some reply_hola |}
                     eq_refl eq_refl eq_refl eq_refl Hne eq_refl)
              (Error (js "Player error")) eq_refl)
    as [H1 [_ [_ H4]]].
  exact (conj H1 H4).
Defined.

(** ** The file name, the two reducers, the button *)

Lemma split_pop_aux_spec (sep : N) (s acc : jsstring) :
  ~ In sep acc ->
  ~ In sep (split_pop_aux sep acc s)
  /\ exists pre,
       rev acc ++ s = pre ++ split_pop_aux sep acc s
       /\ (pre = [] \/ exists pre', pre = pre' ++ [sep]).
Proof.
  revert acc. induction s as [|x s IH]; intros acc Hacc.
  - cbn [split_pop_aux]. split.
    + intros H. apply in_rev in H. contradiction.
    + exists []. split; [now rewrite app_nil_r|left; reflexivity].
  - cbn [split_pop_aux]. destruct (N.eqb_spec x sep) as [->|Hx].
    + destruct (IH [] (fun H => H)) as [Hn [pre [E Hpre]]].
      split; [exact Hn|].
      exists (rev acc ++ sep :: pre). split.
      * cbn [rev app] in E. rewrite <- app_assoc. cbn [app]. now rewrite <- E.
      * right. destruct Hpre as [->|[pre' ->]].
        -- exists (rev acc). reflexivity.
        -- exists (rev acc ++ sep :: pre').
           rewrite <- app_assoc. reflexivity.
    + destruct (IH (x :: acc)) as [Hn [pre [E Hpre]]].
      { intros [H|H]; contradiction. }
      split; [exact Hn|].
      exists pre. split; [|exact Hpre].
      cbn [rev] in E. rewrite <- app_assoc in E. exact E.
Qed.

(** X17. The file name of the upload is the part of the recording
    location after its last slash: it holds no slash, the location is a
    prefix followed by it, and the prefix is empty or ends with a slash.  A
    location without a slash is the file name itself. *)
Theorem upload_name_is_last_segment :
  forall (d : Device) (c : Ctl) (u : jsstring),
    ~ In 47%N (name (audio (form (turn_request d c u))))
    /\ (exists pre,
           u = pre ++ name (audio (form (turn_request d c u)))
           /\ (pre = [] \/ exists pre', pre = pre' ++ [47%N]))
    /\ (~ In 47%N u -> name (audio (form (turn_request d c u))) = u)
    /\ uri (audio (form (turn_request d c u))) = u.
Proof.
  intros d c u.
  change (name (audio (form (turn_request d c u)))) with (split_pop 47 u).
  destruct (split_pop_aux_spec 47 u [] (fun H => H)) as [Hn [pre [E Hpre]]].
  fold (split_pop 47 u) in Hn, E. cbn [rev app] in E.
  split; [exact Hn|]. split; [exists pre; split; assumption|].
  split; [|reflexivity].
  intros Hu. destruct Hpre as [->|[pre' ->]]; [now rewrite E at 2|].
  exfalso. apply Hu. rewrite E. apply in_or_app. left.
  apply in_or_app. right. left. reflexivity.
Qed.

(** X18. The reducer of the earlier component [App] and the reducer of
    [Home] are the same function. *)
Theorem reducers_agree :
  forall (s : State) (e : Event), App.reducer s e = reducer s e.
Proof. intros [] []; reflexivity. Qed.

(** X20. The button shows one label in every state, and different
    labels in different states.  Where it is drawn as disabled, a press and
    a release leave the component as it is; a release in [idle] and a press
    in [listening] do so too. *)
Theorem disabled_button_is_inert :
  (forall s, length (buttonText s) = 1)
  /\ (forall s1 s2, buttonText s1 = buttonText s2 -> s1 = s2)
  /\ (forall d c,
         buttonDisabled (state c) = true ->
         run (onPressIn d) c = c /\ run (onPressOut d) c = c)
  /\ (forall d c, state c = idle -> run (onPressOut d) c = c)
  /\ (forall d c, state c = listening -> run (onPressIn d) c = c).
Proof.
  split; [intros []; reflexivity|].
  split; [intros [] []; cbn; intros H; first [reflexivity|discriminate H]|].
  split; [|split].
  - intros d c H. split.
    + apply onPressIn_elsewhere. intros Hs. rewrite Hs in H. discriminate H.
    + apply onPressOut_elsewhere. intros Hs. rewrite Hs in H. discriminate H.
  - intros d c H. apply onPressOut_elsewhere. rewrite H. discriminate.
  - intros d c H. apply onPressIn_elsewhere. rewrite H. discriminate.
Qed.

Lemma disabled_button_is_inert_witness :
  run (onPressIn dev_hola) (run (onPressOut dev_offline) (pressed dev_offline))
  = run (onPressOut dev_offline) (pressed dev_offline).
Proof.
  exact (proj1 (proj1 (proj2 (proj2 disabled_button_is_inert)) dev_hola
                  (run (onPressOut dev_offline) (pressed dev_offline))
                  eq_refl)).
Defined.

Lemma upload_name_is_last_segment_witness :
  name (audio (form (turn_request dev_hola initial (js "recording-1.m4a"))))
  = js "recording-1.m4a".
Proof.
  apply (proj1 (proj2 (proj2 (upload_name_is_last_segment dev_hola initial
                                (js "recording-1.m4a"))))).
  vm_compute. intros H. repeat (destruct H as [H|H]; [discriminate H|]).
  exact H.
Defined.

(** ** The client and the backend together *)

(** X21. The request that [stopAndSend] builds, read by [handler].
    Suppose the request reaches the handler with its method, the part
    [audio] as an uploaded file with a non-empty path, and the part
    [history] as the field that was written, be it as a string or as an
    array that begins with it.  Then [parseForm] resolves with the last 6
    entries of the history of the component, and, once the audio is
    transcribed, the chat request carries the system prompt, these entries
    in their order, and the transcription as the user message. *)
Theorem chat_sees_the_last_six :
  forall (d : Device) (c : Ctl) (u : jsstring)
         (client : Backend.OpenAI) (req : Backend.Request)
         (fm : Backend.Form) (tmp : jsstring) (n : option jsstring)
         (stt : Backend.TranscriptionJSON),
    Backend.method req = Some (http_method (turn_request d c u)) ->
    Backend.body req = inr fm ->
    Backend.assoc (js "audio") (Backend.files fm)
    = Some {| Backend.filepath := Some tmp;
              Backend.originalFilename := n |} ->
    tmp <> [] ->
    Backend.fieldToString
      (Backend.assoc (js "history") (Backend.fields fm))
    = Some (history_field (form (turn_request d c u))) ->
    Backend.transcriptions_create client tmp
      (if truthy n then nullish n [] else js "audio.m4a") = inr stt ->
    Backend.parseForm (Backend.body req)
    = inr {| Backend.file_path := tmp;
             Backend.file_name := n;
             Backend.history := slice (-6) (history c) |}
    /\ nth_error
         (Backend.calls (snd (Backend.handler client req Backend.fresh))) 2
       = Some (Backend.CallChat
                 ({| Backend.p_role := Backend.role_system;
                     Backend.p_content := Backend.SYSTEM_PROMPT |}
                  :: map (fun m =>
                            {| Backend.p_role := Backend.chat_role (role m);
                               Backend.p_content := content m |})
                         (slice (-6) (history c))
                  ++ [ {| Backend.p_role := Backend.role_user;
                          Backend.p_content :=
                            nullish (Backend.text stt) [] |} ])).
Proof.
  intros d c u client req fm tmp n stt Hm Hb Hf Hne Hh Hs.
  assert (Hw : Backend.parse_history
                 (Some (JSON_stringify (slice (-6) (history c))))
               = slice (-6) (history c)).
  { rewrite parse_history_stringify. apply last12_short.
    pose proof (@slice_last_length Msg 6 (history c)) as H.
    change (slice (- Z.of_nat 6) (history c))
      with (slice (-6) (history c)) in H.
    rewrite H; lia. }
  assert (Hp : Backend.parseForm (Backend.body req)
               = inr {| Backend.file_path := tmp;
                        Backend.file_name := n;
                        Backend.history := slice (-6) (history c) |}).
  { destruct tmp as [|x tmp']; [contradiction Hne; reflexivity|].
    rewrite Hb. unfold Backend.parseForm, Backend.pick_file.
    rewrite Hf, Hh. cbv iota beta.
    change (history_field (form (turn_request d c u)))
      with (JSON_stringify (slice (-6) (history c))).
    now rewrite Hw. }
  split; [exact Hp|].
  change (http_method (turn_request d c u)) with (js "POST") in Hm.
  destruct (method_post req Hm) as [Hget Hpost].
  unfold Backend.handler. rewrite Hget, Hpost.
  cbn [negb]. run_backend. rewrite Hp.
  cbn [Backend.file_path Backend.file_name Backend.history
       Backend.upload_name].
  unfold Backend.upload_name. cbn [Backend.file_name].
  rewrite Hs. cbn [Backend.history Backend.file_path].
  fold (Backend.build_messages (slice (-6) (history c))
          (nullish (Backend.text stt) [])).
  destruct (Backend.chat_completions_create client _) as [e|chat];
    [reflexivity|].
  destruct (Backend.speech_create client _) as [e|audio]; reflexivity.
Qed.

Lemma chat_sees_the_last_six_witness :
  Backend.parseForm
    (Backend.body
       {| Backend.method := Some (js "POST");
          Backend.body :=
            inr {| Backend.fields :=
                     [(js "history",
                       Backend.FArray
                         [history_field
                            (form (turn_request dev_hola
                                     (pressed_with dev_hola 8)
                                     (js "file:///cache/Audio/recording-1.m4a")))])];
                   Backend.files :=
                     [(js "audio",
                       {| Backend.filepath := Some (js "/tmp/upload_1");
                          Backend.originalFilename :=
                            Some (js "recording-1.m4a") |})] |} |})
  = inr {| Backend.file_path := js "/tmp/upload_1";
           Backend.file_name := Some (js "recording-1.m4a");
           Backend.history := skipn 2 (entries 8) |}.
Proof.
  assert (Hne : js "/tmp/upload_1" <> []) by discriminate.
  pose (fm :=
          {| Backend.fields :=
               [(js "history",
                 Backend.FArray
                   [history_field
                      (form (turn_request dev_hola
                               (pressed_with dev_hola 8)
                               (js "file:///cache/Audio/recording-1.m4a")))])];
             Backend.files :=
               [(js "audio",
                 {| Backend.filepath := Some (js "/tmp/upload_1");
                    Backend.originalFilename :=
                      Some (js "recording-1.m4a") |})] |}).
  exact (proj1 (@chat_sees_the_last_six dev_hola (pressed_with dev_hola 8)
                  (js "file:///cache/Audio/recording-1.m4a")
                  (openai None)
                  {| Backend.method := Some (js "POST");
                     Backend.body := inr fm |}
                  fm
                  (js "/tmp/upload_1") (Some (js "recording-1.m4a"))
                  {| Backend.text := Some (js "Hola") |}
                  eq_refl eq_refl eq_refl Hne eq_refl eq_refl)).
Defined.

(** X22. The turn body of [handler], read by [stopAndSend]: the body
    always has a transcript, so a body with audio always appends the user
    entry with the transcript and the assistant entry with the reply text
    (the last 12 entries are kept); a body whose audio is the empty string
    is a failure for the component, which goes to [error] with
    [No audioBase64 in response] and leaves the history as it is. *)
Theorem turn_body_lands_in_history :
  forall (d : Device) (c : Ctl) (rec : Recording) (u : jsstring)
         (resp : HttpResponse) (p : Backend.TurnJSON),
    state c = listening ->
    recordingRef c = Some rec ->
    stopAndUnloadAsync rec = inr tt ->
    getURI rec = Some u ->
    u <> [] ->
    fetch d (turn_request d c u) = inr resp ->
    ok resp = true ->
    resp_json resp = inr (seen_by_client p) ->
    (Backend.audioBase64 p <> [] ->
     history (run (onPressOut d) c)
     = last12 (history c
               ++ [ {| role := user; content := Backend.transcript p |};
                    {| role := assistant;
                       content := Backend.replyText p |} ]))
    /\ (Backend.audioBase64 p = [] ->
        state (run (onPressOut d) c) = error
        /\ errorMsg (run (onPressOut d) c)
           = Some (js "No audioBase64 in response")
        /\ history (run (onPressOut d) c) = history c).
Proof.
  intros d c rec u resp p Hs Hr Hstop Hu Hne Hf Hok Hj.
  assert (Hrun : run (onPressOut d) c = run (stopAndSend d) c).
  { unfold onPressOut. cbv [run bind get]. cbn [fst snd]. now rewrite Hs. }
  rewrite Hrun. clear Hrun. split.
  - intros Ha.
    assert (Hres : remote_result (fetch d (turn_request d c u))
                   = Some (seen_by_client p)).
    { unfold remote_result. rewrite Hf, Hok, Hj. cbn.
      destruct (Backend.audioBase64 p); [contradiction Ha|]; reflexivity. }
    destruct (@stopAndSend_remote_success d c rec Hs Hr Hstop u Hu Hne _ Hres)
      as [Hh _].
    rewrite Hh. reflexivity.
  - intros Ha.
    assert (Hres : remote_result (fetch d (turn_request d c u)) = None).
    { unfold remote_result. rewrite Hf, Hok, Hj. cbn. now rewrite Ha. }
    destruct (@stopAndSend_remote_failure d c rec Hs Hr Hstop u Hu Hne Hres)
      as [msg [E Hmsg]].
    rewrite Hf, Hok, Hj in Hmsg. rewrite E. cbn [state errorMsg history].
    rewrite Hmsg. repeat split; reflexivity.
Qed.

Lemma turn_body_lands_in_history_witness :
  history (run (onPressOut dev_hola) (pressed dev_hola))
  = last12 ([] ++ [ {| role := user; content := js "Hola" |};
                    {| role := assistant; content := reply_hola |} ]).
Proof.
  assert (Hne : js "file:///cache/Audio/recording-1.m4a" <> [])
    by discriminate.
  refine (proj1 (@turn_body_lands_in_history dev_hola (pressed dev_hola)
                   rec_ok (js "file:///cache/Audio/recording-1.m4a")
                   resp_hola
                   {| Backend.audioBase64 := js "SUQzBAAAAAAA";
                      Backend.transcript := js "Hola";
                      Backend.replyText := reply_hola |}
                   eq_refl eq_refl eq_refl eq_refl Hne eq_refl eq_refl
                   eq_refl) _).
  discriminate.
Defined.

(** ** The shape of the history *)

Lemma turns_entries_app (l1 l2 : list (jsstring * jsstring)) :
  turns_entries (l1 ++ l2) = turns_entries l1 ++ turns_entries l2.
Proof. unfold turns_entries. apply flat_map_app. Qed.

Lemma turns_entries_length (l : list (jsstring * jsstring)) :
  length (turns_entries l) = 2 * length l.
Proof.
  induction l as [|tr l IH]; [reflexivity|].
  cbn [turns_entries flat_map app length] in *. fold (turns_entries l).
  rewrite IH. lia.
Qed.

Lemma turns_entries_skipn (k : nat) (l : list (jsstring * jsstring)) :
  skipn (2 * k) (turns_entries l) = turns_entries (skipn k l).
Proof.
  revert l. induction k as [|k IH]; intros l; [reflexivity|].
  destruct l as [|tr l]; [reflexivity|].
  replace (2 * S k) with (S (S (2 * k))) by lia.
  cbn [turns_entries flat_map app skipn]. apply IH.
Qed.

(** One more turn on a history of whole turns. *)
Lemma appendTurn_turns (t : jsstring) (r : option jsstring)
  (turns : list (jsstring * jsstring)) :
  length turns <= 6 ->
  exists turns',
    length turns' <= 6
    /\ appendTurn (Some t) r (turns_entries turns) = turns_entries turns'.
Proof.
  intros H. rewrite appendTurn_last12, last12_skipn.
  change [ {| role := user; content := nullish (Some t) [] |};
           {| role := assistant; content := nullish r [] |} ]
    with (turns_entries [(t, nullish r [])]).
  rewrite <- turns_entries_app, turns_entries_length, length_app.
  cbn [length].
  replace (2 * (length turns + 1) - 12)
    with (2 * (length turns + 1 - 6)) by lia.
  rewrite turns_entries_skipn. eexists. split; [|reflexivity].
  rewrite length_skipn, length_app. cbn [length]. lia.
Qed.

(** X24. In every state the component can reach, the history is made of
    whole turns, at most 6 of them: it alternates user and assistant
    entries and begins with a user entry, the eviction at the cap removes a
    turn and never half of one; and the window of 6 entries sent with a
    request is made of whole turns as well, at most 3. *)
Theorem history_is_whole_turns :
  forall c : Ctl,
    reachable c ->
    (exists turns, length turns <= 6 /\ history c = turns_entries turns)
    /\ (exists turns,
           length turns <= 3
           /\ slice (-6) (history c) = turns_entries turns).
Proof.
  intros c Hc.
  assert (H : exists turns,
             length turns <= 6 /\ history c = turns_entries turns).
  { induction Hc as [|d c _ IH|d c _ IH|b c _ IH|c _ IH].
    - exists []. split; [cbn; lia|reflexivity].
    - destruct (state c) eqn:Hs;
        try (rewrite onPressIn_elsewhere by (rewrite Hs; discriminate);
             exact IH).
      unfold onPressIn. cbv [run bind get]. cbn [fst snd]. rewrite Hs.
      change (snd (startRecording d c)) with (run (startRecording d) c).
      now rewrite startRecording_history.
    - destruct (state c) eqn:Hs;
        try (rewrite onPressOut_elsewhere by (rewrite Hs; discriminate);
             exact IH).
      unfold onPressOut. cbv [run bind get]. cbn [fst snd]. rewrite Hs.
      change (snd (stopAndSend d c)) with (run (stopAndSend d) c).
      destruct (stopAndSend_history d c) as [->|[t [r ->]]]; [exact IH|].
      destruct IH as [turns [Hl ->]]. now apply appendTurn_turns.
    - run_handler. destruct (watcher c && b); exact IH.
    - now rewrite (proj1 (proj2 (onReplayPress_frame c))). }
  split; [exact H|].
  destruct H as [turns [Hl ->]].
  change (-6)%Z with (- Z.of_nat 6)%Z.
  rewrite slice_last by lia. rewrite turns_entries_length.
  replace (2 * length turns - 6) with (2 * (length turns - 3)) by lia.
  rewrite turns_entries_skipn. eexists. split; [|reflexivity].
  rewrite length_skipn. lia.
Qed.

Lemma history_is_whole_turns_witness :
  exists turns,
    length turns <= 6
    /\ history (run (onPressOut dev_hola) (pressed dev_hola))
       = turns_entries turns.
Proof.
  exact (proj1 (@history_is_whole_turns
                  (run (onPressOut dev_hola) (pressed dev_hola))
                  (reach_press_out dev_hola
                     (reach_press_in dev_hola reach_initial)))).
Defined.

(** X23. What [parseForm] reads out of a history field is stable: written
    with [JSON.stringify] and read again it is the same history, whatever
    the field was. *)
Theorem parse_history_is_stable :
  forall raw : option jsstring,
    Backend.parse_history
      (Some (JSON_stringify (Backend.parse_history raw)))
    = Backend.parse_history raw.
Proof.
  intros raw. rewrite parse_history_stringify. apply last12_short.
  exact (last12_length _).
Qed.
